(** * CIS457Sim: the chessboard demo's move-legality and board-state engine

    A shallow embedding of [src/chessboard/main.py]: the piece classes and
    their move tables, [ChessboardDemo.swapPieces], [isPieceBetween],
    [isVaidMove], [grabPiece] and [releasePiece], followed by the properties
    of the legality engine, the move executor and the drag state machine.

    Python values are modelled as follows.
    - [int] is [Z]; [%] and [//] are [Z.modulo] and [Z.div] (both floor, as
      in Python) and raise [ZeroDivisionError] on a zero divisor.
    - [/] on two ints is IEEE-754 binary64 division of the two converted
      operands (primitive floats); this is what CPython computes for
      operands below 2^53 in magnitude, which covers every board
      displacement and every move component.
    - [self.pieces] is a Python list of 64 slots holding [None] or a piece
      object: [list (option Piece)], indexed with Python's rules (negative
      indices count from the end, anything else out of range raises
      [IndexError]).
    - Every piece object is referenced by exactly one slot of
      [self.pieces], so an attribute assignment through a slot is an update
      of that slot's record.
    - Calls into the 3D engine (model loading, [setPos], [detachNode],
      [OnscreenText]) are recorded, in order, in a log of [Effect]s.
      Console [print]s are diagnostics and are left out. *)

From Stdlib Require Import ZArith Lia Bool String.
From Stdlib Require Import Floats.PrimFloat Numbers.Cyclic.Int63.Uint63.
From stdpp Require Import base tactics option list numbers.

Local Open Scope Z_scope.

(** ** Outcomes of running Python code *)

Inductive PyExn : Type :=
  | ZeroDivisionError
  | IndexError
  | AttributeError.

(** [Ok a]: the call returns [a]; [Raise e]: it raises [e]; [Loops]: the
    [while] loop of [isPieceBetween] never exits. *)
Inductive Result (A : Type) : Type :=
  | Ok (a : A)
  | Raise (e : PyExn)
  | Loops.

Arguments Ok {A} a.
Arguments Raise {A} e.
Arguments Loops {A}.

#[global] Instance Result_ret : MRet Result := fun _ a => Ok a.

#[global] Instance Result_bind : MBind Result := fun _ _ f m =>
  match m with
  | Ok a => f a
  | Raise e => Raise e
  | Loops => Loops
  end.

(** ** Python primitives *)

Module Py.

(** [float(z)] for an int of small magnitude. *)
Definition float_of_int (z : Z) : float :=
  if z <? 0 then PrimFloat.opp (PrimFloat.of_uint63 (Uint63.of_Z (- z)))
  else PrimFloat.of_uint63 (Uint63.of_Z z).

(** [a % b] *)
Definition mod_ (a b : Z) : Result Z :=
  if b =? 0 then Raise ZeroDivisionError else Ok (a mod b).

(** [a // b] *)
Definition floordiv (a b : Z) : Result Z :=
  if b =? 0 then Raise ZeroDivisionError else Ok (a / b).

(** [a / b] *)
Definition truediv (a b : Z) : Result float :=
  if b =? 0 then Raise ZeroDivisionError
  else Ok (PrimFloat.div (float_of_int a) (float_of_int b)).

(** The position a list index denotes, if any. *)
Definition index {A} (l : list A) (i : Z) : option nat :=
  let n := Z.of_nat (length l) in
  let j := if i <? 0 then i + n else i in
  if (0 <=? j) && (j <? n) then Some (Z.to_nat j) else None.

(** [l[i]] *)
Definition getitem {A} (l : list A) (i : Z) : Result A :=
  match index l i with
  | Some j => match l !! j with Some x => Ok x | None => Raise IndexError end
  | None => Raise IndexError
  end.

(** [l[i] = x] *)
Definition setitem {A} (l : list A) (i : Z) (x : A) : Result (list A) :=
  match index l i with
  | Some j => Ok (<[j := x]> l)
  | None => Raise IndexError
  end.

End Py.

(** ** Colours, piece classes and their move tables *)

Inductive Color : Type := BLACK | WHITE | HIGHLIGHT | VALID | PIECEBLACK.

Definition Color_eqb (a b : Color) : bool :=
  match a, b with
  | BLACK, BLACK | WHITE, WHITE | HIGHLIGHT, HIGHLIGHT
  | VALID, VALID | PIECEBLACK, PIECEBLACK => true
  | _, _ => false
  end.

(** The subclasses of [Piece]; [kind p] plays the role of [type(p)]. *)
Inductive PieceKind : Type := Pawn | King | Queen | Bishop | Knight | Rook.

Definition PieceKind_eqb (a b : PieceKind) : bool :=
  match a, b with
  | Pawn, Pawn | King, King | Queen, Queen
  | Bishop, Bishop | Knight, Knight | Rook, Rook => true
  | _, _ => false
  end.

Definition Move : Type := (Z * Z)%type.

(** The class attribute [moves]. *)
Definition class_moves (k : PieceKind) : list Move :=
  match k with
  | Pawn => [(0,1); (1,1); (-1,1)]
  | King => [(1,0); (0,1); (-1,0); (0,-1); (1,1); (-1,1); (1,-1); (-1,-1)]
  | Queen => [(1,0); (0,1); (-1,0); (0,-1); (1,1); (-1,1); (1,-1); (-1,-1)]
  | Bishop => [(1,1); (-1,1); (1,-1); (-1,-1)]
  | Knight => [(-1,2); (-2,1); (-2,-1); (-1,-2); (1,-2); (2,-1); (2,1); (1,2)]
  | Rook => [(1,0); (0,1); (-1,0); (0,-1)]
  end.

(** The class attribute [limit]. *)
Definition class_limit (k : PieceKind) : bool :=
  match k with
  | Pawn | King | Knight => true
  | Queen | Bishop | Rook => false
  end.

(** The move list assigned to each black pawn by [ChessboardDemo.__init__]. *)
Definition black_pawn_moves : list Move := [(0,-1); (1,-1); (-1,-1)].

(** A piece object. [moves] and [limit] are what attribute lookup finds on
    the instance (the class attribute unless the instance overrides it).
    [square] is created by [swapPieces] only: [None] is the attribute not
    being set yet. *)
Record Piece : Type := mkPiece {
  kind : PieceKind;
  white : bool;
  moves : list Move;
  limit : bool;
  is_first_move : bool;
  square : option Z
}.

(** Calls into the engine, in program order. *)
Inductive Effect : Type :=
  | LoadModel (k : PieceKind) (sq : Z) (c : Color)
  | OnscreenText (text : string)
  | DetachNode (p : Piece)
  | SetPos (p : Piece) (sq : Z).

(** [Piece.__init__(self, square, color)] for the subclass [k]. *)
Definition new_piece (k : PieceKind) (sq : Z) (color : Color) : Piece :=
  {| kind := k;
     white := if Color_eqb color PIECEBLACK then false else true;
     moves := class_moves k;
     limit := class_limit k;
     is_first_move := false;
     square := None |}.

Definition set_moves (ms : list Move) (p : Piece) : Piece :=
  {| kind := kind p; white := white p; moves := ms; limit := limit p;
     is_first_move := is_first_move p; square := square p |}.

Definition set_is_first_move (b : bool) (p : Piece) : Piece :=
  {| kind := kind p; white := white p; moves := moves p; limit := limit p;
     is_first_move := b; square := square p |}.

Definition set_square (sq : Z) (p : Piece) : Piece :=
  {| kind := kind p; white := white p; moves := moves p; limit := limit p;
     is_first_move := is_first_move p; square := Some sq |}.

(** ** The demo object *)

Abbreviation Board := (list (option Piece)).

(** [hiSq] and [dragging] hold [False] ([None] here) or a square index. *)
Record Demo : Type := mkDemo {
  pieces : Board;
  hiSq : option Z;
  dragging : option Z;
  screen : list Effect
}.

Definition pieceOrder : list PieceKind :=
  [Rook; Knight; Bishop; Queen; King; Bishop; Knight; Rook].

(** The piece set-up loops of [ChessboardDemo.__init__]. *)
Definition init_pieces : Board :=
  let ps := replicate 64 None in
  let ps := foldl (fun ps i => <[i := Some (new_piece Pawn (Z.of_nat i) WHITE)]> ps)
                  ps (seq 8 8) in
  let ps := foldl (fun ps i =>
                     <[i := Some (set_moves black_pawn_moves
                                    (new_piece Pawn (Z.of_nat i) PIECEBLACK))]> ps)
                  ps (seq 48 8) in
  foldl (fun ps '(i, k) =>
           <[(i + 56)%nat := Some (new_piece k (Z.of_nat i + 56) PIECEBLACK)]>
             (<[i := Some (new_piece k (Z.of_nat i) WHITE)]> ps))
        ps (zip (seq 0 8) pieceOrder).

Definition init_demo : Demo :=
  {| pieces := init_pieces; hiSq := None; dragging := None; screen := [] |}.

(** ** [swapPieces] *)

Definition game_over_text : string := "Game over!".

Definition swapPieces (fr to : Z) (d : Demo) : Result Demo :=
  temp ← Py.getitem (pieces d) fr;
  other ← Py.getitem (pieces d) to;
  ps ← Py.setitem (pieces d) fr other;
  ps ← Py.setitem ps to temp;
  at_fr ← Py.getitem ps fr;
  '(ps, log) ←
    match at_fr with
    | Some captured =>
        if negb (fr =? to) then
          (* [type(King(-100, WHITE))] builds a king on every capture *)
          let log := [LoadModel King (-100) WHITE] ++
                     (if PieceKind_eqb (kind captured) King
                      then [OnscreenText game_over_text] else []) ++
                     [DetachNode captured] in
          ps ← Py.setitem ps fr None;
          Ok (ps, log)
        else Ok (ps, [])
    | None => Ok (ps, [])
    end;
  at_to ← Py.getitem ps to;
  match at_to with
  | Some p =>
      let p := set_square to p in
      ps ← Py.setitem ps to (Some p);
      Ok {| pieces := ps; hiSq := hiSq d; dragging := dragging d;
            screen := screen d ++ log ++ [SetPos p to] |}
  | None =>
      Ok {| pieces := ps; hiSq := hiSq d; dragging := dragging d;
            screen := screen d ++ log |}
  end.

(** ** [isPieceBetween] *)

(** The [while] loop; [fuel] bounds the number of iterations and [Loops] is
    returned when it runs out. *)
Fixpoint isPieceBetween_while (fuel : nat) (ps : Board) (move : Move)
    (currentPos targetPos : Z) (piece_NOT_between : bool) : Result bool :=
  if negb (currentPos =? targetPos) && (currentPos >? -1) && (currentPos <? 64)
  then
    match fuel with
    | O => Loops
    | S fuel =>
        occ ← Py.getitem ps currentPos;
        let piece_NOT_between :=
          match occ with Some _ => false | None => piece_NOT_between end in
        isPieceBetween_while fuel ps move (currentPos + (move.1 + move.2 * 8))
                             targetPos piece_NOT_between
    end
  else Ok piece_NOT_between.

(** 64 iterations are enough whenever the loop exits at all (lemmas
    [isPieceBetween_while_fuel] and [isPieceBetween_while_stuck] below). *)
Definition isPieceBetween (ps : Board) (move : Move) (currentPos targetPos : Z)
    : Result bool :=
  isPieceBetween_while 64 ps move (currentPos + (move.1 + move.2 * 8))
                       targetPos true.

(** ** [isVaidMove] *)

(** [a % b == 0 and a // b > 0] *)
Definition forward_multiple (a b : Z) : Result bool :=
  r ← Py.mod_ a b;
  if r =? 0 then q ← Py.floordiv a b; Ok (q >? 0) else Ok false.

(** [a / b == c / d] *)
Definition same_ratio (a b c d : Z) : Result bool :=
  x ← Py.truediv a b;
  y ← Py.truediv c d;
  Ok (PrimFloat.eqb x y).

(** The [if]/[elif] chain at the top of the loop body: the value of
    [valid_move] after it. *)
Definition match_move (piece_limit : bool) (move : Move)
    (xDistance yDistance : Z) (valid_move : bool) : Result bool :=
  if xDistance =? move.1 then
    if yDistance =? move.2 then Ok true
    else if negb piece_limit && negb (move.2 =? 0) && negb (yDistance =? 0) then
      c ← forward_multiple yDistance move.2;
      if c : bool then
        e ← same_ratio xDistance yDistance move.1 move.2;
        Ok (if e : bool then true else valid_move)
      else Ok valid_move
    else Ok valid_move
  else if negb piece_limit && negb (move.1 =? 0) then
    c ← forward_multiple xDistance move.1;
    if c : bool then
      if yDistance =? move.2 then
        e ← same_ratio yDistance xDistance move.2 move.1;
        Ok (if e : bool then true else valid_move)
      else if negb (move.2 =? 0) && negb (yDistance =? 0) then
        c ← forward_multiple yDistance move.2;
        if c : bool then
          e ← same_ratio xDistance yDistance move.1 move.2;
          Ok (if e : bool then true else valid_move)
        else Ok valid_move
      else Ok valid_move
    else Ok valid_move
  else Ok valid_move.

(** [x.limit] where [x] may be [None]. *)
Definition getattr_limit (x : option Piece) : Result bool :=
  match x with
  | Some p => Ok (limit p)
  | None => Raise AttributeError
  end.

(** The [for move in piece.moves] loop over the remaining moves. *)
Fixpoint isVaidMove_for (ps : Board) (piece : Piece) (currentPos targetPos : Z)
    (xDistance yDistance : Z) (ms : list Move) (valid_move : bool)
    : Result bool :=
  match ms with
  | [] => Ok valid_move
  | move :: ms =>
      valid_move ← match_move (limit piece) move xDistance yDistance valid_move;
      if valid_move : bool then
        occ ← Py.getitem ps currentPos;
        occ_limit ← getattr_limit occ;
        if negb occ_limit then
          (* [valid_move = self.isPieceBetween(...)] followed by [break] *)
          isPieceBetween ps move currentPos targetPos
        else
          isVaidMove_for ps piece currentPos targetPos xDistance yDistance
                         ms valid_move
      else
        isVaidMove_for ps piece currentPos targetPos xDistance yDistance
                       ms valid_move
  end.

Definition isVaidMove (ps : Board) (piece : Piece) (currentPos targetPos : Z)
    : Result bool :=
  let xCurrent := currentPos mod 8 in
  let yCurrent := currentPos / 8 in
  let xTarget := targetPos mod 8 in
  let yTarget := targetPos / 8 in
  let xDistance := xTarget - xCurrent in
  let yDistance := yTarget - yCurrent in
  valid_move ← isVaidMove_for ps piece currentPos targetPos
                              xDistance yDistance (moves piece) false;
  occ ← Py.getitem ps targetPos;
  match occ with
  | Some other =>
      if Bool.eqb (white other) (white piece) then Ok false else Ok valid_move
  | None => Ok valid_move
  end.

(** ** [grabPiece] and [releasePiece] *)

Definition grabPiece (d : Demo) : Result Demo :=
  match hiSq d with
  | Some h =>
      occ ← Py.getitem (pieces d) h;
      match occ with
      | Some _ =>
          Ok {| pieces := pieces d; hiSq := None; dragging := Some h;
                screen := screen d |}
      | None => Ok d
      end
  | None => Ok d
  end.

(** Leaves the rejected piece where it was and puts its model back. *)
Definition put_back (s : Z) (d : Demo) : Result Demo :=
  occ ← Py.getitem (pieces d) s;
  match occ with
  | Some p =>
      Ok {| pieces := pieces d; hiSq := hiSq d; dragging := dragging d;
            screen := screen d ++ [SetPos p s] |}
  | None => Raise AttributeError
  end.

Definition releasePiece (d : Demo) : Result Demo :=
  d ← match dragging d with
      | Some s =>
          match hiSq d with
          | None => put_back s d
          | Some h =>
              occ ← Py.getitem (pieces d) s;
              match occ with
              | None => Raise AttributeError   (* [piece.moves] on [None] *)
              | Some piece =>
                  ok ← isVaidMove (pieces d) piece s h;
                  if ok : bool then
                    ps ← Py.setitem (pieces d) s
                           (Some (set_is_first_move false piece));
                    swapPieces s h {| pieces := ps; hiSq := hiSq d;
                                      dragging := dragging d;
                                      screen := screen d |}
                  else put_back s d
              end
          end
      | None => Ok d
      end;
  Ok {| pieces := pieces d; hiSq := hiSq d; dragging := None;
        screen := screen d |}.

(** ** [SquareColor] *)

Definition SquareColor (i : Z) : Color :=
  if negb ((i + ((i / 8) mod 2)) mod 2 =? 0) then BLACK else WHITE.

(** ** [mouseTask] and the event loop *)

(** What the engine reports to one run of [mouseTask]: no mouse in the
    window, or a mouse together with the tag of the nearest square its ray
    hits, if it hits one. *)
Inductive Pointer : Type :=
  | NoMouse
  | Mouse (hit : option Z).

(** The demo together with the colour last given to each of
    [self.squares] and the pieces whose model was moved under the pointer
    ([obj.setPos(PointAtZ(...))]). The point is engine geometry and is not
    computed here: [PointAtZ] divides by the z component of the picking
    ray, which the fixed, downward-looking camera keeps away from zero. *)
Record Stage : Type := mkStage {
  demo : Demo;
  squares : list Color;
  carried : list Piece
}.

(** [for i in rng: a = body(i, a)], stopping at the first exception. *)
Fixpoint for_range {A : Type} (body : Z -> A -> Result A) (rng : list Z) (a : A)
    : Result A :=
  match rng with
  | [] => Ok a
  | i :: rng => a ← body i a; for_range body rng a
  end.

(** [range(64)] *)
Definition range64 : list Z := seqZ 0 64.

(** [for i in range(64): self.squares[i].setColor(SquareColor(i))] *)
Definition reset_colors (sq : list Color) : Result (list Color) :=
  for_range (fun i sq => Py.setitem sq i (SquareColor i)) range64 sq.

(** The body of the loop that highlights the valid moves. *)
Definition highlight_body (ps : Board) (s : Z) (i : Z) (sq : list Color)
    : Result (list Color) :=
  occ ← Py.getitem ps s;
  match occ with
  | None => Raise AttributeError   (* [piece.moves] on [None] *)
  | Some piece =>
      ok ← isVaidMove ps piece s i;
      if ok : bool then Py.setitem sq i VALID else Ok sq
  end.

Definition mouseTask (ptr : Pointer) (st : Stage) : Result Stage :=
  let d := demo st in
  (* First, clear the current highlight *)
  '(sq, hi) ← match hiSq d with
              | Some _ => sq ← reset_colors (squares st); Ok (sq, None)
              | None => Ok (squares st, hiSq d)
              end;
  match ptr with
  | NoMouse =>
      Ok {| demo := {| pieces := pieces d; hiSq := hi; dragging := dragging d;
                       screen := screen d |};
            squares := sq; carried := carried st |}
  | Mouse hit =>
      crd ← match dragging d with
            | Some s =>
                occ ← Py.getitem (pieces d) s;
                match occ with
                | Some p => Ok (carried st ++ [p])
                | None => Raise AttributeError
                end
            | None => Ok (carried st)
            end;
      sq ← match dragging d with
           | Some s => for_range (highlight_body (pieces d) s) range64 sq
           | None => Ok sq
           end;
      match hit with
      | Some i =>
          sq ← Py.setitem sq i HIGHLIGHT;
          Ok {| demo := {| pieces := pieces d; hiSq := Some i;
                           dragging := dragging d; screen := screen d |};
                squares := sq; carried := crd |}
      | None =>
          Ok {| demo := {| pieces := pieces d; hiSq := hi;
                           dragging := dragging d; screen := screen d |};
                squares := sq; carried := crd |}
      end
  end.

(** The three things the engine calls back: the picking task and the two
    mouse-button events bound in [ChessboardDemo.__init__]. *)
Inductive Event : Type :=
  | Tick (ptr : Pointer)
  | Mouse1
  | Mouse1Up.

Definition handle (e : Event) (st : Stage) : Result Stage :=
  match e with
  | Tick ptr => mouseTask ptr st
  | Mouse1 =>
      d ← grabPiece (demo st);
      Ok {| demo := d; squares := squares st; carried := carried st |}
  | Mouse1Up =>
      d ← releasePiece (demo st);
      Ok {| demo := d; squares := squares st; carried := carried st |}
  end.

(** The callbacks run one after the other, in the order of the events. *)
Fixpoint run (es : list Event) (st : Stage) : Result Stage :=
  match es with
  | [] => Ok st
  | e :: es => st ← handle e st; run es st
  end.

(** The stage [ChessboardDemo.__init__] leaves: every square coloured by
    [SquareColor], the pieces set up, nothing highlighted or dragged. *)
Definition init_stage : Stage :=
  {| demo := init_demo; squares := map SquareColor range64; carried := [] |}.

(** ** The uniform matching rule *)

(** The rule in the specification's words: the displacement is the vector
    itself, or the piece is ranged and the displacement is a positive
    integer multiple of the vector. *)
Definition uniform_rule (piece_limit : bool) (move : Move) (dxTotal dyTotal : Z)
    : Prop :=
  (dxTotal = move.1 /\ dyTotal = move.2) \/
  (piece_limit = false /\
   exists k : Z, 0 < k /\ dxTotal = k * move.1 /\ dyTotal = k * move.2).

(** A decision procedure for [uniform_rule] on board displacements, which
    never need a multiplier above 7. *)
Definition uniformb (piece_limit : bool) (move : Move) (dxTotal dyTotal : Z)
    : bool :=
  ((dxTotal =? move.1) && (dyTotal =? move.2)) ||
  (negb piece_limit &&
   existsb (fun k => (dxTotal =? k * move.1) && (dyTotal =? k * move.2))
           (seqZ 1 7)).

(** ** Structural validity *)

Definition on_board (s : Z) : Prop := 0 <= s < 64.

(** A piece as the program builds them: class tables, with the move list of
    a pawn possibly replaced by the black pawns' one. *)
Definition table_piece (p : Piece) : Prop :=
  limit p = class_limit (kind p) /\
  (moves p = class_moves (kind p) \/
   (kind p = Pawn /\ moves p = black_pawn_moves)).

(** The linear step the obstruction scan adds to the square index. *)
Definition step (move : Move) : Z := move.1 + move.2 * 8.

(** The displacement [isVaidMove] computes between two squares. *)
Definition xDistance (currentPos targetPos : Z) : Z :=
  targetPos mod 8 - currentPos mod 8.

Definition yDistance (currentPos targetPos : Z) : Z :=
  targetPos / 8 - currentPos / 8.

(** Some vector of the piece reaches [t] from [s], in one step for a limited
    piece and in [k >= 1] steps over empty squares for a ranged one. *)
Definition reaches (ps : Board) (p : Piece) (s t : Z) : Prop :=
  exists (move : Move) (k : Z),
    In move (moves p) /\ 1 <= k /\ (limit p = true -> k = 1) /\
    xDistance s t = k * move.1 /\ yDistance s t = k * move.2 /\
    forall j, 1 <= j < k -> ps !! Z.to_nat (s + j * step move) = Some None.

(** Square [t] holds a piece of [p]'s side. *)
Definition own_side_at (ps : Board) (p : Piece) (t : Z) : Prop :=
  exists q, ps !! Z.to_nat t = Some (Some q) /\ white q = white p.

(** Components of a displacement between two squares of the board. *)
Definition small (z : Z) : Prop := -7 <= z <= 7.

Definition span : list Z := seqZ (-7) 15.

Definition Result_bool_eqb (a b : Result bool) : bool :=
  match a, b with
  | Ok x, Ok y => Bool.eqb x y
  | _, _ => false
  end.

(** One case of [match_move] against [uniformb]. *)
Definition match_move_case (c : bool * bool * (Z * Z) * (Z * Z)) : bool :=
  let '(lim, v, move, (x, y)) := c in
  Result_bool_eqb (match_move lim move x y v) (Ok (v || uniformb lim move x y)).

(** Both flags, both incoming values of [valid_move], and all vectors and
    displacements with small components. *)
Definition match_move_cases : list (bool * bool * (Z * Z) * (Z * Z)) :=
  list_prod (list_prod (list_prod [false; true] [false; true])
                       (list_prod span span))
            (list_prod span span).

(** One case of the float comparison against the exact one. *)
Definition same_ratio_case (q : (Z * Z) * (Z * Z)) : bool :=
  let '((a, b), (c, d)) := q in
  (b =? 0) || (d =? 0) ||
  Result_bool_eqb (same_ratio a b c d) (Ok (a * d =? c * b)).

Definition same_ratio_cases : list ((Z * Z) * (Z * Z)) :=
  list_prod (list_prod span span) (list_prod span span).

(** ** Boards and logs used in the statements *)

(** The rook of the concrete scenario. *)
Definition corner_rook : Piece := new_piece Rook 0 WHITE.

(** A board holding one piece and nothing else. *)
Definition lone (p : Piece) (s : Z) : Board :=
  <[Z.to_nat s := Some p]> (replicate 64 None).

(** A vector of one of the six class tables, or of the black pawns' list. *)
Definition table_move (move : Move) : Prop :=
  (exists k, In move (class_moves k)) \/ In move black_pawn_moves.

(** The number of game-over announcements in a log. *)
Definition is_game_over (e : Effect) : bool :=
  match e with
  | OnscreenText text => String.eqb text game_over_text
  | _ => false
  end.

Definition game_overs (log : list Effect) : nat :=
  length (filter (fun e => Is_true (is_game_over e)) log).

(** A rook about to take a king: dragged from square 0, over square 56. *)
Definition rook_takes_king : Demo :=
  {| pieces := <[56%nat := Some (new_piece King 56 PIECEBLACK)]> (lone corner_rook 0);
     hiSq := Some 56; dragging := Some 0; screen := [] |}.

(** The states the event loop keeps to: 64 slots and 64 square colours,
    every piece built from the class tables, a dragged square that is on
    the board and occupied, a hovered square that is on the board. *)
Definition wf_stage (st : Stage) : Prop :=
  length (pieces (demo st)) = 64%nat /\
  length (squares st) = 64%nat /\
  (forall i p, pieces (demo st) !! i = Some (Some p) -> table_piece p) /\
  (forall s, dragging (demo st) = Some s ->
             on_board s /\
             exists p, Py.getitem (pieces (demo st)) s = Ok (Some p)) /\
  (forall h, hiSq (demo st) = Some h -> on_board h).

(** The square a picking ray hits carries one of the tags 0..63 given to
    the squares at set-up. *)
Definition board_pointer (ptr : Pointer) : Prop :=
  match ptr with
  | Mouse (Some i) => on_board i
  | _ => True
  end.

Definition board_event (e : Event) : Prop :=
  match e with
  | Tick ptr => board_pointer ptr
  | _ => True
  end.

(** The number of pieces on a board. *)
Definition occupied (ps : Board) : nat := length (omap id ps).

(** * Properties *)

(** ** Indexing the board *)

Lemma index_on_board {A} (l : list A) (i : Z) :
  length l = 64%nat -> on_board i -> Py.index l i = Some (Z.to_nat i).
Proof.
  intros Hl [H0 H1]. unfold Py.index. rewrite Hl.
  destruct (Z.ltb_spec i 0) as [|_]; [lia|].
  destruct (Z.leb_spec 0 i); [|lia].
  destruct (Z.ltb_spec i (Z.of_nat 64)); [reflexivity|lia].
Qed.

Lemma getitem_on_board {A} (l : list A) (i : Z) :
  length l = 64%nat -> on_board i ->
  exists x, l !! Z.to_nat i = Some x /\ Py.getitem l i = Ok x.
Proof.
  intros Hl Hi. unfold Py.getitem. rewrite index_on_board by assumption.
  destruct (lookup_lt_is_Some_2 l (Z.to_nat i)) as [x Hx].
  - destruct Hi. lia.
  - exists x. rewrite Hx. auto.
Qed.

Lemma getitem_lookup {A} (l : list A) (i : Z) (x : A) :
  length l = 64%nat -> on_board i ->
  Py.getitem l i = Ok x <-> l !! Z.to_nat i = Some x.
Proof.
  intros Hl Hi. destruct (getitem_on_board l i Hl Hi) as (y & Hy & Hg).
  rewrite Hg, Hy. split; intros; congruence.
Qed.

Lemma setitem_on_board {A} (l : list A) (i : Z) (x : A) :
  length l = 64%nat -> on_board i ->
  Py.setitem l i x = Ok (<[Z.to_nat i := x]> l).
Proof.
  intros Hl Hi. unfold Py.setitem. now rewrite index_on_board.
Qed.

(** ** The matching chain computes the uniform rule *)

Lemma span_spec (a : Z) : small a -> In a span.
Proof.
  intros H. apply list_elem_of_In, elem_of_seqZ. unfold small in H. lia.
Qed.

Lemma Result_bool_eqb_eq (a b : Result bool) :
  Result_bool_eqb a b = true -> a = b.
Proof.
  destruct a as [x| |], b as [y| |]; simpl; try discriminate.
  intros H. apply Bool.eqb_prop in H. now subst.
Qed.

Lemma forallb_In {A} (f : A -> bool) (l : list A) (a : A) :
  forallb f l = true -> In a l -> f a = true.
Proof. intros H. now apply forallb_forall. Qed.

Lemma In_bool (b : bool) : In b [false; true].
Proof. destruct b; simpl; auto. Qed.

Lemma match_move_cases_ok : forallb match_move_case match_move_cases = true.
Proof. vm_compute. reflexivity. Qed.

Lemma match_move_uniformb (lim : bool) (m0 m1 x y : Z) (v : bool) :
  small m0 -> small m1 -> small x -> small y ->
  match_move lim (m0, m1) x y v = Ok (v || uniformb lim (m0, m1) x y).
Proof.
  intros Hm0 Hm1 Hx Hy. apply Result_bool_eqb_eq.
  apply (forallb_In match_move_case match_move_cases (lim, v, (m0, m1), (x, y))
                    match_move_cases_ok).
  unfold match_move_cases.
  repeat apply in_prod; auto using In_bool, span_spec.
Qed.

Lemma same_ratio_cases_ok : forallb same_ratio_case same_ratio_cases = true.
Proof. vm_compute. reflexivity. Qed.

(** On board-sized operands the comparison of the two float quotients is
    the comparison of the two fractions. *)
Lemma same_ratio_exact (a b c d : Z) :
  small a -> small b -> small c -> small d -> b <> 0 -> d <> 0 ->
  same_ratio a b c d = Ok (a * d =? c * b).
Proof.
  intros Ha Hb Hc Hd Hb0 Hd0.
  assert (H : same_ratio_case ((a, b), (c, d)) = true).
  { apply (forallb_In same_ratio_case same_ratio_cases), in_prod;
      [exact same_ratio_cases_ok | |]; apply in_prod; now apply span_spec. }
  unfold same_ratio_case in H.
  destruct (Z.eqb_spec b 0) as [|_]; [contradiction|].
  destruct (Z.eqb_spec d 0) as [|_]; [contradiction|].
  now apply Result_bool_eqb_eq.
Qed.

Lemma uniformb_spec (lim : bool) (move : Move) (x y : Z) :
  small x -> small y ->
  uniformb lim move x y = true <-> uniform_rule lim move x y.
Proof.
  destruct move as [m0 m1]. unfold uniformb, uniform_rule, small.
  cbn [fst snd]. intros Hx Hy.
  rewrite orb_true_iff, !andb_true_iff, negb_true_iff, existsb_exists.
  rewrite !Z.eqb_eq. split.
  - intros [H | [Hl (k & Hk & Hkx)]]; [left; exact H | right].
    split; [exact Hl|]. exists k.
    apply list_elem_of_In, elem_of_seqZ in Hk.
    apply andb_true_iff in Hkx. rewrite !Z.eqb_eq in Hkx. lia.
  - intros [H | [Hl (k & Hk & Hkx & Hky)]]; [left; exact H | right].
    split; [exact Hl|].
    destruct (Z_le_gt_dec k 7) as [Hle | Hgt].
    + exists k. split.
      * apply list_elem_of_In, elem_of_seqZ. lia.
      * apply andb_true_iff. rewrite !Z.eqb_eq. lia.
    + assert (m0 = 0) by nia. assert (m1 = 0) by nia. subst.
      exists 1. split.
      * apply list_elem_of_In, elem_of_seqZ. lia.
      * apply andb_true_iff. rewrite !Z.eqb_eq. lia.
Qed.

(** ** Facts about the class tables *)

Lemma table_piece_moves (p : Piece) (move : Move) :
  table_piece p -> In move (moves p) ->
  small move.1 /\ small move.2 /\ step move <> 0 /\
  (limit p = false ->
   -1 <= move.1 <= 1 /\ -1 <= move.2 <= 1).
Proof.
  intros [Hl [Hm | [Hk Hm]]] Hin; rewrite Hm in Hin; rewrite Hl; clear Hl Hm.
  - destruct (kind p); simpl in Hin;
      repeat (destruct Hin as [<- | Hin]; [unfold small, step; simpl;
        repeat split; (lia || discriminate) |]);
      destruct Hin.
  - rewrite Hk. simpl in Hin.
    repeat (destruct Hin as [<- | Hin]; [unfold small, step; simpl;
        repeat split; (lia || discriminate) |]);
      destruct Hin.
Qed.

Lemma displacement_small (s t : Z) :
  on_board s -> on_board t ->
  small (t mod 8 - s mod 8) /\ small (t / 8 - s / 8).
Proof.
  unfold on_board, small. intros Hs Ht.
  pose proof (Z.mod_pos_bound s 8). pose proof (Z.mod_pos_bound t 8).
  assert (0 <= s / 8 < 8) by (split; [apply Z.div_pos | apply Z.div_lt_upper_bound]; lia).
  assert (0 <= t / 8 < 8) by (split; [apply Z.div_pos | apply Z.div_lt_upper_bound]; lia).
  lia.
Qed.

(** A displacement that is [k] times a vector is [k] linear steps, and the
    squares in between are on the board. *)
Lemma ray_on_board (s t k : Z) (move : Move) :
  on_board s -> on_board t -> 1 <= k ->
  t mod 8 - s mod 8 = k * move.1 -> t / 8 - s / 8 = k * move.2 ->
  t = s + k * step move /\
  forall j, 1 <= j < k -> on_board (s + j * step move).
Proof.
  destruct move as [m0 m1]. unfold on_board, step. simpl.
  intros Hs Ht Hk Hx Hy.
  pose proof (Z.mod_pos_bound s 8). pose proof (Z.mod_pos_bound t 8).
  pose proof (Z.div_mod s 8). pose proof (Z.div_mod t 8).
  assert (0 <= s / 8 < 8) by (split; [apply Z.div_pos | apply Z.div_lt_upper_bound]; lia).
  assert (0 <= t / 8 < 8) by (split; [apply Z.div_pos | apply Z.div_lt_upper_bound]; lia).
  split; [lia|]. intros j Hj.
  assert (0 <= s mod 8 + j * m0 <= 7) by nia.
  assert (0 <= s / 8 + j * m1 <= 7) by nia.
  lia.
Qed.

(** Two vectors of a ranged table that reach the same displacement are the
    same vector, with the same multiplier. *)
Lemma unit_ray_unique (m0 m1 n0 n1 k k' : Z) :
  -1 <= m0 <= 1 -> -1 <= m1 <= 1 -> -1 <= n0 <= 1 -> -1 <= n1 <= 1 ->
  1 <= k -> 1 <= k' -> (m0, m1) <> (0, 0) ->
  k * m0 = k' * n0 -> k * m1 = k' * n1 ->
  (m0, m1) = (n0, n1) /\ k = k'.
Proof.
  intros Hm0 Hm1 Hn0 Hn1 Hk Hk' Hne Hx Hy.
  assert (m0 = -1 \/ m0 = 0 \/ m0 = 1) as Cm0 by lia.
  assert (m1 = -1 \/ m1 = 0 \/ m1 = 1) as Cm1 by lia.
  assert (n0 = -1 \/ n0 = 0 \/ n0 = 1) as Cn0 by lia.
  assert (n1 = -1 \/ n1 = 0 \/ n1 = 1) as Cn1 by lia.
  destruct Cm0 as [-> | [-> | ->]], Cm1 as [-> | [-> | ->]],
           Cn0 as [-> | [-> | ->]], Cn1 as [-> | [-> | ->]];
    try (exfalso; lia); try (split; [reflexivity | lia]).
  exfalso. apply Hne. reflexivity.
Qed.

(** ** The obstruction scan *)

Section Scan.

Variable ps : Board.
Variable move : Move.
Hypothesis ps_length : length ps = 64%nat.
Hypothesis step_nonzero : step move <> 0.

(** The loop exits within the fuel it is given as long as the fuel covers
    the squares left in the direction of travel. *)
Lemma isPieceBetween_while_total (fuel : nat) :
  forall (cur tgt : Z) (pnb : bool),
    (on_board cur ->
     (0 < step move -> 64 - cur <= Z.of_nat fuel) /\
     (step move < 0 -> cur + 1 <= Z.of_nat fuel)) ->
    exists b, isPieceBetween_while fuel ps move cur tgt pnb = Ok b.
Proof using ps_length step_nonzero.
  unfold on_board, step in *.
  induction fuel as [|fuel IH]; intros cur tgt pnb Hfuel; simpl.
  - destruct (negb (cur =? tgt) && (cur >? -1) && (cur <? 64)) eqn:E; [|eauto].
    apply andb_true_iff in E as [E E2]. apply andb_true_iff in E as [_ E1].
    apply Z.gtb_lt in E1. apply Z.ltb_lt in E2. lia.
  - destruct (negb (cur =? tgt) && (cur >? -1) && (cur <? 64)) eqn:E; [|eauto].
    apply andb_true_iff in E as [E E2]. apply andb_true_iff in E as [_ E1].
    apply Z.gtb_lt in E1. apply Z.ltb_lt in E2.
    destruct (getitem_on_board ps cur ps_length) as (occ & _ & ->);
      [unfold on_board; lia|].
    simpl. apply IH. lia.
Qed.

(** When the target lies [n] steps ahead and the squares on the way are on
    the board, the scan answers whether they are all empty. *)
Lemma isPieceBetween_while_reach (n : nat) :
  forall (fuel : nat) (cur tgt : Z) (pnb : bool),
    (n <= fuel)%nat ->
    tgt = cur + Z.of_nat n * step move ->
    (forall j, 0 <= j < Z.of_nat n -> on_board (cur + j * step move)) ->
    exists b,
      isPieceBetween_while fuel ps move cur tgt pnb = Ok b /\
      (b = true <->
       pnb = true /\
       forall j, 0 <= j < Z.of_nat n ->
                 ps !! Z.to_nat (cur + j * step move) = Some None).
Proof using ps_length step_nonzero.
  induction n as [|n IH]; intros fuel cur tgt pnb Hfuel Htgt Hon.
  - exists pnb. split.
    + replace tgt with cur by lia.
      destruct fuel; simpl; rewrite Z.eqb_refl; reflexivity.
    + split; [intros ->; split; [reflexivity | intros; lia] | tauto].
  - destruct fuel as [|fuel]; [lia|].
    assert (Hcur : on_board cur).
    { replace cur with (cur + 0 * step move) by lia. apply Hon. lia. }
    assert (Hne : cur <> tgt) by nia.
    simpl.
    destruct (Z.eqb_spec cur tgt) as [|_]; [contradiction|].
    destruct (Z.gtb_spec cur (-1)) as [_|]; [|unfold on_board in Hcur; lia].
    destruct (Z.ltb_spec cur 64) as [_|]; [|unfold on_board in Hcur; lia].
    simpl.
    destruct (getitem_on_board ps cur ps_length Hcur) as (occ & Hocc & ->).
    simpl. fold (step move).
    destruct (IH fuel (cur + step move) tgt
                 (match occ with Some _ => false | None => pnb end))
      as (b & Hb & Hiff).
    + lia.
    + lia.
    + intros j Hj. replace (cur + step move + j * step move)
        with (cur + (j + 1) * step move) by lia. apply Hon. lia.
    + exists b. split; [exact Hb|]. rewrite Hiff. clear Hiff Hb IH. split.
      * intros [Hp Hall]. destruct occ as [q|]; [discriminate|].
        split; [exact Hp|]. intros j Hj.
        destruct (Z.eq_dec j 0) as [-> | Hj0].
        -- replace (cur + 0 * step move) with cur by lia. exact Hocc.
        -- replace (cur + j * step move)
             with (cur + step move + (j - 1) * step move) by lia.
           apply Hall. lia.
      * intros [Hp Hall]. split.
        -- pose proof (Hall 0 ltac:(lia)) as H0.
           rewrite Z.mul_0_l, Z.add_0_r, Hocc in H0.
           destruct occ; [discriminate | exact Hp].
        -- intros j Hj. replace (cur + step move + j * step move)
             with (cur + (j + 1) * step move) by lia. apply Hall. lia.
Qed.

(** [isPieceBetween] returns, whatever the two squares. *)
Lemma isPieceBetween_total (cur tgt : Z) :
  exists b, isPieceBetween ps move cur tgt = Ok b.
Proof using ps_length step_nonzero.
  apply isPieceBetween_while_total. unfold on_board. intros H.
  change (Z.of_nat 64) with 64. split; intros; lia.
Qed.

(** Along a ray of [k] steps, [isPieceBetween] is true exactly when the
    squares strictly between the two ends are empty. *)
Lemma isPieceBetween_ray (s t k : Z) :
  1 <= k <= 64 ->
  t = s + k * step move ->
  (forall j, 1 <= j < k -> on_board (s + j * step move)) ->
  exists b,
    isPieceBetween ps move s t = Ok b /\
    (b = true <->
     forall j, 1 <= j < k -> ps !! Z.to_nat (s + j * step move) = Some None).
Proof using ps_length step_nonzero.
  intros Hk Ht Hon. unfold isPieceBetween. fold (step move).
  destruct (isPieceBetween_while_reach (Z.to_nat (k - 1)) 64
              (s + step move) t true) as (b & Hb & Hiff).
  - lia.
  - rewrite Z2Nat.id by lia. rewrite Ht. ring.
  - rewrite Z2Nat.id by lia. intros j Hj. replace (s + step move + j * step move)
      with (s + (j + 1) * step move) by lia. apply Hon. lia.
  - exists b. split; [exact Hb|]. rewrite Hiff, Z2Nat.id by lia. split.
    + intros [_ Hall] j Hj.
      replace (s + j * step move)
        with (s + step move + (j - 1) * step move) by lia.
      apply Hall. lia.
    + intros Hall. split; [reflexivity|]. intros j Hj.
      replace (s + step move + j * step move)
        with (s + (j + 1) * step move) by lia. apply Hall. lia.
Qed.

End Scan.

(** A zero step never leaves the square it starts on: the loop either
    exits at its first test or never. *)
Lemma isPieceBetween_while_stuck (ps : Board) (move : Move)
    (cur tgt : Z) (pnb : bool) (fuel : nat) :
  length ps = 64%nat -> step move = 0 -> cur <> tgt -> on_board cur ->
  isPieceBetween_while fuel ps move cur tgt pnb = Loops.
Proof.
  intros Hl Hs Hne Hon. revert pnb.
  induction fuel as [|fuel IH]; intros pnb; simpl;
    destruct (Z.eqb_spec cur tgt) as [|_]; try contradiction;
    (destruct (Z.gtb_spec cur (-1)) as [_|]; [|unfold on_board in Hon; lia]);
    (destruct (Z.ltb_spec cur 64) as [_|]; [|unfold on_board in Hon; lia]);
    simpl; [reflexivity|].
  destruct (getitem_on_board ps cur Hl Hon) as (occ & _ & ->). simpl.
  unfold step in Hs. replace (cur + (move.1 + move.2 * 8)) with cur by lia.
  apply IH.
Qed.

(** More fuel than 64 changes nothing once the step is not zero. *)
Lemma isPieceBetween_while_fuel (ps : Board) (move : Move)
    (cur tgt : Z) (pnb : bool) (fuel : nat) :
  length ps = 64%nat -> step move <> 0 -> (64 <= fuel)%nat ->
  isPieceBetween_while fuel ps move cur tgt pnb =
  isPieceBetween_while 64 ps move cur tgt pnb.
Proof.
  intros Hl Hs Hfuel.
  assert (Hmono : forall n m c b r,
             isPieceBetween_while n ps move c tgt b = Ok r ->
             isPieceBetween_while (n + m) ps move c tgt b = Ok r).
  { induction n as [|n IH]; intros m c b r; simpl.
    - destruct (negb (c =? tgt) && (c >? -1) && (c <? 64)) eqn:E; [discriminate|].
      intros H. destruct m; simpl; rewrite E; exact H.
    - destruct (negb (c =? tgt) && (c >? -1) && (c <? 64)) eqn:E; [|auto].
      destruct (Py.getitem ps c) as [occ| |]; simpl; try discriminate.
      apply IH. }
  destruct (isPieceBetween_while_total ps move Hl Hs 64 cur tgt pnb) as [r Hr].
  { unfold on_board. lia. }
  rewrite Hr. replace fuel with (64 + (fuel - 64))%nat by lia.
  apply Hmono. exact Hr.
Qed.

(** ** The loop over the move table *)

Section Legality.

Variable ps : Board.
Variable p : Piece.
Variables s t : Z.
Hypothesis ps_length : length ps = 64%nat.
Hypothesis s_on_board : on_board s.
Hypothesis t_on_board : on_board t.
Hypothesis p_at_s : Py.getitem ps s = Ok (Some p).

Let x := xDistance s t.
Let y := yDistance s t.

(** A limited piece: the loop runs to the end and remembers any exact
    match. *)
Lemma isVaidMove_for_limited (ms : list Move) (v : bool) :
  limit p = true ->
  (forall move, In move ms -> small move.1 /\ small move.2) ->
  isVaidMove_for ps p s t x y ms v =
  Ok (v || existsb (fun move => uniformb true move x y) ms).
Proof using p_at_s s_on_board t_on_board.
  intros Hlim. revert v.
  destruct (displacement_small s t s_on_board t_on_board) as [Hx Hy].
  fold (xDistance s t) in Hx. fold (yDistance s t) in Hy. fold x in Hx. fold y in Hy.
  induction ms as [|[m0 m1] ms IH]; intros v Hsmall; simpl.
  - now rewrite orb_false_r.
  - destruct (Hsmall (m0, m1) (or_introl eq_refl)) as [H0 H1].
    rewrite Hlim, (match_move_uniformb true m0 m1 x y v H0 H1 Hx Hy). simpl.
    destruct (v || uniformb true (m0, m1) x y) eqn:E.
    + rewrite p_at_s. simpl. rewrite Hlim. simpl.
      rewrite IH by (intros; apply Hsmall; now right).
      f_equal. destruct v; simpl in *; [reflexivity|]. now rewrite E.
    + rewrite IH by (intros; apply Hsmall; now right).
      f_equal. apply orb_false_iff in E as [-> ->]. reflexivity.
Qed.

(** A ranged piece: the loop stops at the first vector that matches and
    lets the obstruction scan along that vector decide. *)
Lemma isVaidMove_for_ranged (ms : list Move) :
  limit p = false ->
  (forall move, In move ms -> small move.1 /\ small move.2) ->
  isVaidMove_for ps p s t x y ms false =
  match find (fun move => uniformb false move x y) ms with
  | Some move => isPieceBetween ps move s t
  | None => Ok false
  end.
Proof using p_at_s s_on_board t_on_board.
  intros Hlim.
  destruct (displacement_small s t s_on_board t_on_board) as [Hx Hy].
  fold (xDistance s t) in Hx. fold (yDistance s t) in Hy. fold x in Hx. fold y in Hy.
  induction ms as [|[m0 m1] ms IH]; intros Hsmall; simpl; [reflexivity|].
  destruct (Hsmall (m0, m1) (or_introl eq_refl)) as [H0 H1].
  rewrite Hlim, (match_move_uniformb false m0 m1 x y false H0 H1 Hx Hy). simpl.
  destruct (uniformb false (m0, m1) x y) eqn:E.
  - rewrite p_at_s. simpl. rewrite Hlim. reflexivity.
  - apply IH. intros; apply Hsmall; now right.
Qed.

End Legality.

(** ** What [isVaidMove] decides *)

Section Decision.

Variable ps : Board.
Variable p : Piece.
Variables s t : Z.
Hypothesis ps_length : length ps = 64%nat.
Hypothesis s_on_board : on_board s.
Hypothesis t_on_board : on_board t.
Hypothesis p_at_s : Py.getitem ps s = Ok (Some p).
Hypothesis p_table : table_piece p.

(** The value of [valid_move] when the loop is left. *)
Lemma isVaidMove_for_reaches :
  exists v,
    isVaidMove_for ps p s t (xDistance s t) (yDistance s t) (moves p) false
    = Ok v /\
    (v = true <-> reaches ps p s t).
Proof using All.
  destruct (displacement_small s t s_on_board t_on_board) as [Hx Hy].
  fold (xDistance s t) in Hx. fold (yDistance s t) in Hy.
  assert (Hsmall : forall move, In move (moves p) -> small move.1 /\ small move.2).
  { intros move Hin. destruct (table_piece_moves p move p_table Hin); tauto. }
  destruct (limit p) eqn:Hlim.
  - rewrite (isVaidMove_for_limited ps p s t) by assumption.
    eexists; split; [reflexivity|]. simpl. rewrite existsb_exists. split.
    + intros (move & Hin & Hu). apply uniformb_spec in Hu; [|assumption..].
      destruct Hu as [[Hux Huy] | [Hl _]]; [|discriminate].
      exists move, 1. repeat split; try lia; try assumption.
    + intros (move & k & Hin & Hk & Hl & Hkx & Hky & _).
      specialize (Hl Hlim). subst k. exists move. split; [assumption|].
      apply uniformb_spec; [assumption..|]. left. lia.
  - rewrite (isVaidMove_for_ranged ps p s t) by assumption.
    destruct (find _ _) as [move|] eqn:F.
    + apply find_some in F as [Hin Hu].
      apply uniformb_spec in Hu; [|assumption..].
      destruct (table_piece_moves p move p_table Hin) as (_ & _ & Hstep & Hunit).
      specialize (Hunit Hlim).
      assert (Hk : exists k, 1 <= k <= 64 /\
                             xDistance s t = k * move.1 /\
                             yDistance s t = k * move.2).
      { destruct Hu as [[Hux Huy] | [_ (k & Hk & Hux & Huy)]].
        - exists 1. lia.
        - exists k. unfold small in Hx, Hy. repeat split; try assumption; try lia.
          unfold step in Hstep. nia. }
      destruct Hk as (k & Hk & Hkx & Hky).
      destruct (ray_on_board s t k move) as [Ht Hon]; try assumption; [lia|].
      destruct (isPieceBetween_ray ps move ps_length Hstep s t k Hk Ht Hon)
        as (b & Hb & Hiff).
      exists b. split; [exact Hb|]. rewrite Hiff. split.
      * intros Hclear. exists move, k.
        repeat split; try assumption; try lia. intros; congruence.
      * intros (move' & k' & Hin' & Hk' & _ & Hkx' & Hky' & Hclear').
        destruct (table_piece_moves p move' p_table Hin')
          as (_ & _ & Hstep' & Hunit').
        specialize (Hunit' Hlim).
        destruct move as [m0 m1], move' as [n0 n1]. simpl in *.
        destruct (unit_ray_unique n0 n1 m0 m1 k' k) as [Hmv ->];
          try lia.
        { intros [= -> ->]. apply Hstep'. reflexivity. }
        rewrite <- Hmv. exact Hclear'.
    + exists false. split; [reflexivity|]. split; [discriminate|].
      intros (move & k & Hin & Hk & _ & Hkx & Hky & _).
      pose proof (find_none _ _ F move Hin) as Hu. simpl in Hu.
      assert (Ht : uniformb false move (xDistance s t) (yDistance s t) = true).
      { apply uniformb_spec; [assumption..|]. right. split; [reflexivity|].
        exists k. repeat split; (assumption || lia). }
      congruence.
Qed.

(** [isVaidMove] returns, and its answer is: some vector reaches the
    target and the target does not hold a piece of the mover's side. *)
Lemma isVaidMove_legal :
  exists b,
    isVaidMove ps p s t = Ok b /\
    (b = true <-> reaches ps p s t /\ ~ own_side_at ps p t).
Proof using All.
  destruct isVaidMove_for_reaches as (v & Hv & Hiff).
  unfold isVaidMove. cbv zeta.
  fold (xDistance s t). fold (yDistance s t). rewrite Hv. simpl.
  destruct (getitem_on_board ps t ps_length t_on_board) as (occ & Hocc & ->).
  unfold own_side_at. rewrite Hocc. simpl.
  destruct occ as [q|].
  - destruct (Bool.eqb (white q) (white p)) eqn:E.
    + exists false. split; [reflexivity|]. split; [discriminate|].
      intros [_ Hn]. exfalso. apply Hn. exists q. split; [reflexivity|].
      now apply Bool.eqb_prop.
    + exists v. split; [reflexivity|]. rewrite Hiff. split; [|tauto].
      intros Hr. split; [exact Hr|]. intros (q' & [= <-] & Hw).
      rewrite Hw, Bool.eqb_reflx in E. discriminate.
  - exists v. split; [reflexivity|]. rewrite Hiff. split; [|tauto].
    intros Hr. split; [exact Hr|]. intros (q' & [=] & _).
Qed.

End Decision.

(** * The legality engine *)

(** C1. For every piece built from the class tables and every displacement
    between two squares of the board, the [if]/[elif] chain of [isVaidMove]
    returns without raising and sets [valid_move] for a vector of the
    piece's table exactly when the uniform rule holds for that vector (the
    displacement is the vector, or the piece is ranged and the displacement
    is a positive integer multiple of it), a [valid_move] that was already
    true staying true. Hence the chain accepts the displacement for some
    vector of the table if and only if the uniform rule holds for some
    vector of the table. *)
Theorem match_move_is_uniform_rule (p : Piece) (s t : Z) :
  table_piece p -> on_board s -> on_board t ->
  (forall (move : Move) (v : bool),
      In move (moves p) ->
      exists b,
        match_move (limit p) move (xDistance s t) (yDistance s t) v = Ok b /\
        (b = true <->
         v = true \/
         uniform_rule (limit p) move (xDistance s t) (yDistance s t))) /\
  ((exists move,
       In move (moves p) /\
       match_move (limit p) move (xDistance s t) (yDistance s t) false = Ok true)
   <->
   (exists move,
       In move (moves p) /\
       uniform_rule (limit p) move (xDistance s t) (yDistance s t))).
Proof.
  intros Hp Hs Ht.
  destruct (displacement_small s t Hs Ht) as [Hx Hy].
  assert (Hchain : forall move v, In move (moves p) ->
            match_move (limit p) move (xDistance s t) (yDistance s t) v
            = Ok (v || uniformb (limit p) move (xDistance s t) (yDistance s t))).
  { intros [m0 m1] v Hin.
    destruct (table_piece_moves p (m0, m1) Hp Hin) as (H0 & H1 & _).
    now apply match_move_uniformb. }
  split.
  - intros move v Hin. eexists. split; [apply Hchain, Hin|].
    rewrite orb_true_iff. now rewrite uniformb_spec.
  - split; intros (move & Hin & H); exists move; (split; [exact Hin|]).
    + rewrite (Hchain move false Hin) in H. injection H as H.
      now apply uniformb_spec in H.
    + rewrite (Hchain move false Hin). f_equal. now apply uniformb_spec.
Qed.

Lemma match_move_is_uniform_rule_witness :
  (exists move,
      In move (moves corner_rook) /\
      match_move (limit corner_rook) move (xDistance 0 56) (yDistance 0 56) false
      = Ok true)
  <->
  (exists move,
      In move (moves corner_rook) /\
      uniform_rule (limit corner_rook) move (xDistance 0 56) (yDistance 0 56)).
Proof.
  apply (match_move_is_uniform_rule corner_rook 0 56).
  - split; [reflexivity | left; reflexivity].
  - unfold on_board; lia.
  - unfold on_board; lia.
Defined.

Lemma lone_length (p : Piece) (s : Z) : length (lone p s) = 64%nat.
Proof. unfold lone. now rewrite length_insert, length_replicate. Qed.

Lemma lone_at (p : Piece) (s : Z) :
  on_board s -> Py.getitem (lone p s) s = Ok (Some p).
Proof.
  intros Hs. apply getitem_lookup; [apply lone_length | exact Hs |].
  unfold lone. apply list_lookup_insert_eq. rewrite length_replicate.
  unfold on_board in Hs. lia.
Qed.

Lemma lone_elsewhere (p : Piece) (s i : Z) :
  on_board s -> on_board i -> i <> s -> lone p s !! Z.to_nat i = Some None.
Proof.
  unfold on_board, lone. intros Hs Hi Hne.
  rewrite list_lookup_insert_ne by lia.
  apply lookup_replicate_2. lia.
Qed.

(** C2. For every piece kind (with the pawn's table of either side), every
    vector of its table and every source square whose displaced target is on
    the board, [isVaidMove] is true on the board that holds only that
    piece. *)
Theorem exact_vector_is_valid (p : Piece) (s t : Z) (move : Move) :
  table_piece p -> on_board s -> on_board t -> In move (moves p) ->
  xDistance s t = move.1 -> yDistance s t = move.2 ->
  isVaidMove (lone p s) p s t = Ok true.
Proof.
  intros Hp Hs Ht Hin Hx Hy.
  destruct (isVaidMove_legal (lone p s) p s t (lone_length p s) Hs Ht
              (lone_at p s Hs) Hp) as (b & Hb & Hiff).
  rewrite Hb. f_equal. apply Hiff. split.
  - exists move, 1. repeat split; try lia; try assumption.
  - intros (q & Hq & _).
    destruct (table_piece_moves p move Hp Hin) as (_ & _ & Hstep & _).
    assert (t <> s).
    { intros ->. unfold xDistance, yDistance, step in *. lia. }
    rewrite lone_elsewhere in Hq by assumption. discriminate.
Qed.

Lemma exact_vector_is_valid_witness :
  isVaidMove (lone (new_piece Knight 1 WHITE) 1) (new_piece Knight 1 WHITE) 1 18
  = Ok true.
Proof.
  apply (exact_vector_is_valid (new_piece Knight 1 WHITE) 1 18 (1, 2)).
  - split; [reflexivity | left; reflexivity].
  - unfold on_board; lia.
  - unfold on_board; lia.
  - simpl; auto 10.
  - reflexivity.
  - reflexivity.
Defined.

(** A ranged piece is stopped by any piece on the way. *)
Lemma blocked_ray (ps : Board) (p q : Piece) (s t k j : Z) (move : Move) :
  length ps = 64%nat -> on_board s -> on_board t ->
  Py.getitem ps s = Ok (Some p) -> table_piece p -> limit p = false ->
  In move (moves p) -> 2 <= k ->
  xDistance s t = k * move.1 -> yDistance s t = k * move.2 ->
  1 <= j < k -> Py.getitem ps (s + j * step move) = Ok (Some q) ->
  isVaidMove ps p s t = Ok false.
Proof.
  intros Hl Hs Ht Hps Hp Hlim Hin Hk Hx Hy Hj Hq.
  destruct (isVaidMove_legal ps p s t Hl Hs Ht Hps Hp) as (b & Hb & Hiff).
  rewrite Hb. f_equal. destruct b; [exfalso | reflexivity].
  destruct Hiff as [Hiff _]. destruct (Hiff eq_refl) as [Hr _]. clear Hiff.
  destruct Hr as (move' & k' & Hin' & Hk' & _ & Hx' & Hy' & Hclear).
  destruct (table_piece_moves p move Hp Hin) as (_ & _ & Hstep & Hunit).
  destruct (table_piece_moves p move' Hp Hin') as (_ & _ & Hstep' & Hunit').
  specialize (Hunit Hlim). specialize (Hunit' Hlim).
  destruct (ray_on_board s t k move Hs Ht ltac:(lia) Hx Hy) as [_ Hon].
  apply getitem_lookup in Hq; [|assumption | apply Hon; lia].
  destruct move as [m0 m1], move' as [n0 n1]. simpl in *.
  destruct (unit_ray_unique n0 n1 m0 m1 k' k) as [Hmv ->]; try lia.
  { intros [= -> ->]. apply Hstep'. reflexivity. }
  rewrite Hmv in Hclear. rewrite (Hclear j Hj) in Hq. discriminate.
Qed.

(** C3. A ranged piece whose target is [k >= 2] steps along one of its
    vectors cannot move there when a square strictly in between is
    occupied. In particular a rook alone on the board at square 0 may move
    to square 56, and any piece placed on square 24 makes that move
    invalid. *)
Theorem obstruction_blocks_ranged_move :
  (forall (ps : Board) (p q : Piece) (s t k j : Z) (move : Move),
      length ps = 64%nat -> on_board s -> on_board t ->
      Py.getitem ps s = Ok (Some p) -> table_piece p -> limit p = false ->
      In move (moves p) -> 2 <= k ->
      xDistance s t = k * move.1 -> yDistance s t = k * move.2 ->
      1 <= j < k -> Py.getitem ps (s + j * step move) = Ok (Some q) ->
      isVaidMove ps p s t = Ok false) /\
  isVaidMove (lone corner_rook 0) corner_rook 0 56 = Ok true /\
  (forall q : Piece,
      isVaidMove (<[24%nat := Some q]> (lone corner_rook 0)) corner_rook 0 56
      = Ok false).
Proof.
  split; [exact blocked_ray | split].
  - vm_compute. reflexivity.
  - intros q.
    apply (blocked_ray _ corner_rook q 0 56 7 3 (0, 1)).
    + reflexivity.
    + unfold on_board; lia.
    + unfold on_board; lia.
    + reflexivity.
    + split; [reflexivity | left; reflexivity].
    + reflexivity.
    + simpl; auto.
    + lia.
    + reflexivity.
    + reflexivity.
    + lia.
    + reflexivity.
Qed.

Lemma obstruction_blocks_ranged_move_witness :
  isVaidMove (<[24%nat := Some (new_piece Pawn 24 PIECEBLACK)]> (lone corner_rook 0))
             corner_rook 0 56 = Ok false.
Proof.
  apply (proj1 obstruction_blocks_ranged_move
           (<[24%nat := Some (new_piece Pawn 24 PIECEBLACK)]> (lone corner_rook 0))
           corner_rook (new_piece Pawn 24 PIECEBLACK) 0 56 7 3 (0, 1)).
  - reflexivity.
  - unfold on_board; lia.
  - unfold on_board; lia.
  - reflexivity.
  - split; [reflexivity | left; reflexivity].
  - reflexivity.
  - simpl; auto.
  - lia.
  - reflexivity.
  - reflexivity.
  - lia.
  - reflexivity.
Defined.

(** C4. For every piece at square [s] and every square [t] occupied by a
    piece of the same side, [isVaidMove] returns false, whatever the vectors
    and whatever stands in between. *)
Theorem same_side_target_is_invalid (ps : Board) (p q : Piece) (s t : Z) :
  length ps = 64%nat -> on_board s -> on_board t ->
  Py.getitem ps s = Ok (Some p) -> table_piece p ->
  Py.getitem ps t = Ok (Some q) -> white q = white p ->
  isVaidMove ps p s t = Ok false.
Proof.
  intros Hl Hs Ht Hps Hp Hq Hw.
  destruct (isVaidMove_legal ps p s t Hl Hs Ht Hps Hp) as (b & Hb & Hiff).
  rewrite Hb. f_equal. destruct b; [exfalso | reflexivity].
  destruct Hiff as [Hiff _]. destruct (Hiff eq_refl) as [_ Hn]. apply Hn.
  exists q. split; [|exact Hw]. now apply getitem_lookup in Hq.
Qed.

Lemma same_side_target_is_invalid_witness :
  isVaidMove init_pieces (new_piece Rook 0 WHITE) 0 8 = Ok false.
Proof.
  apply (same_side_target_is_invalid init_pieces (new_piece Rook 0 WHITE)
           (new_piece Pawn 8 WHITE) 0 8).
  - reflexivity.
  - unfold on_board; lia.
  - unfold on_board; lia.
  - reflexivity.
  - split; [reflexivity | left; reflexivity].
  - reflexivity.
  - reflexivity.
Defined.

Lemma table_move_step (move : Move) : table_move move -> step move <> 0.
Proof.
  intros [[k Hin] | Hin].
  - apply (table_piece_moves (new_piece k 0 WHITE) move);
      [split; [reflexivity | left; reflexivity] | exact Hin].
  - apply (table_piece_moves (set_moves black_pawn_moves (new_piece Pawn 0 WHITE)) move);
      [split; [reflexivity | right; split; reflexivity] | exact Hin].
Qed.

(** C9. With both squares on the board, the piece standing on the source
    square and built from the class tables, [isVaidMove] returns a boolean:
    no division by zero, no index out of range, no attribute of [None], no
    endless loop. For every table vector the linear step is not zero and
    [isPieceBetween] returns a boolean from any two squares, with any
    amount of fuel from 64 on. *)
Theorem legality_check_is_total (ps : Board) (p : Piece) (s t : Z) :
  length ps = 64%nat -> on_board s -> on_board t ->
  Py.getitem ps s = Ok (Some p) -> table_piece p ->
  (exists b, isVaidMove ps p s t = Ok b) /\
  (forall move, table_move move ->
     step move <> 0 /\
     forall cur tgt,
       exists b, isPieceBetween ps move cur tgt = Ok b /\
         forall fuel, (64 <= fuel)%nat ->
           isPieceBetween_while fuel ps move (cur + (move.1 + move.2 * 8))
                                tgt true = Ok b).
Proof.
  intros Hl Hs Ht Hps Hp. split.
  - destruct (isVaidMove_legal ps p s t Hl Hs Ht Hps Hp) as (b & Hb & _). eauto.
  - intros move Hmove. pose proof (table_move_step move Hmove) as Hstep.
    split; [exact Hstep|]. intros cur tgt.
    destruct (isPieceBetween_total ps move Hl Hstep cur tgt) as [b Hb].
    exists b. split; [exact Hb|]. intros fuel Hfuel.
    rewrite isPieceBetween_while_fuel by assumption. exact Hb.
Qed.

Lemma legality_check_is_total_witness :
  (exists b, isVaidMove init_pieces (new_piece Queen 3 WHITE) 3 35 = Ok b) /\
  (forall move, table_move move ->
     step move <> 0 /\
     forall cur tgt,
       exists b, isPieceBetween init_pieces move cur tgt = Ok b /\
         forall fuel, (64 <= fuel)%nat ->
           isPieceBetween_while fuel init_pieces move
                                (cur + (move.1 + move.2 * 8)) tgt true = Ok b).
Proof.
  apply (legality_check_is_total init_pieces (new_piece Queen 3 WHITE) 3 35).
  - reflexivity.
  - unfold on_board; lia.
  - unfold on_board; lia.
  - reflexivity.
  - split; [reflexivity | left; reflexivity].
Defined.

(** C10. A pawn's diagonal vectors are not reserved for captures: for a
    white pawn (table [(0,1),(1,1),(-1,1)]) or a black pawn (table
    [(0,-1),(1,-1),(-1,-1)]) whose one-step diagonal reaches an empty square
    of the board, [isVaidMove] is true. *)
Theorem pawn_diagonal_to_empty_square_is_valid (ps : Board) (p : Piece) (s t : Z) :
  length ps = 64%nat -> on_board s -> on_board t ->
  Py.getitem ps s = Ok (Some p) ->
  kind p = Pawn -> limit p = true ->
  moves p = (if white p then class_moves Pawn else black_pawn_moves) ->
  xDistance s t = 1 \/ xDistance s t = -1 ->
  yDistance s t = (if white p then 1 else -1) ->
  Py.getitem ps t = Ok None ->
  isVaidMove ps p s t = Ok true.
Proof.
  intros Hl Hs Ht Hps Hk Hlim Hm Hx Hy Hempty.
  assert (Hp : table_piece p).
  { split; [rewrite Hk; exact Hlim|]. rewrite Hk.
    destruct (white p); [left | right]; auto. }
  destruct (isVaidMove_legal ps p s t Hl Hs Ht Hps Hp) as (b & Hb & Hiff).
  rewrite Hb. f_equal. apply Hiff. split.
  - exists (xDistance s t, yDistance s t), 1. simpl.
    repeat split; try lia.
    rewrite Hm, Hy. destruct (white p), Hx as [-> | ->]; simpl; auto.
  - intros (q & Hq & _). apply getitem_lookup in Hempty; [|assumption..].
    congruence.
Qed.

Lemma pawn_diagonal_to_empty_square_is_valid_witness :
  isVaidMove init_pieces (new_piece Pawn 8 WHITE) 8 17 = Ok true /\
  isVaidMove init_pieces (set_moves black_pawn_moves (new_piece Pawn 49 PIECEBLACK))
             49 40 = Ok true.
Proof.
  split.
  - apply (pawn_diagonal_to_empty_square_is_valid init_pieces
             (new_piece Pawn 8 WHITE) 8 17); try reflexivity;
      try (unfold on_board; lia).
    left; reflexivity.
  - apply (pawn_diagonal_to_empty_square_is_valid init_pieces
             (set_moves black_pawn_moves (new_piece Pawn 49 PIECEBLACK)) 49 40);
      try reflexivity; try (unfold on_board; lia).
    right; reflexivity.
Defined.

(** * The move executor *)

Lemma getitem_insert_eq {A} (l : list A) (i : Z) (x : A) :
  length l = 64%nat -> on_board i ->
  Py.getitem (<[Z.to_nat i := x]> l) i = Ok x.
Proof.
  intros Hl Hi. apply getitem_lookup; [now rewrite length_insert | exact Hi |].
  apply list_lookup_insert_eq. unfold on_board in Hi. lia.
Qed.

Lemma getitem_insert_ne {A} (l : list A) (i j : Z) (x : A) :
  length l = 64%nat -> on_board i -> on_board j -> i <> j ->
  Py.getitem (<[Z.to_nat i := x]> l) j = Py.getitem l j.
Proof.
  intros Hl Hi Hj Hne.
  destruct (getitem_on_board l j Hl Hj) as (y & Hy & ->).
  apply getitem_lookup; [now rewrite length_insert | exact Hj |].
  rewrite list_lookup_insert_ne; [exact Hy|]. unfold on_board in *. lia.
Qed.

(** Rewriting reads and writes of on-board slots. *)
Ltac board_side := rewrite ?length_insert; auto.

Ltac board_run :=
  repeat first
    [ rewrite setitem_on_board by board_side
    | rewrite getitem_insert_eq by board_side
    | rewrite getitem_insert_ne by board_side
    | progress simpl ].

Ltac board_solve :=
  intros; rewrite ?length_insert, ?app_nil_r; board_run;
  first [ reflexivity | assumption | congruence | discriminate ].

(** What [swapPieces] does to the board and to the screen, case by case. *)
Lemma swapPieces_spec (d : Demo) (fr to : Z) (P Q : option Piece) :
  length (pieces d) = 64%nat -> on_board fr -> on_board to ->
  Py.getitem (pieces d) fr = Ok P -> Py.getitem (pieces d) to = Ok Q ->
  exists d' log,
    swapPieces fr to d = Ok d' /\
    hiSq d' = hiSq d /\ dragging d' = dragging d /\
    screen d' = screen d ++ log /\
    length (pieces d') = 64%nat /\
    Py.getitem (pieces d') to = Ok (set_square to <$> P) /\
    (fr <> to -> Py.getitem (pieces d') fr = Ok None) /\
    (forall i, on_board i -> i <> fr -> i <> to ->
               Py.getitem (pieces d') i = Py.getitem (pieces d) i) /\
    (forall q, fr <> to -> Q = Some q -> In (DetachNode q) log) /\
    game_overs log =
      (if negb (fr =? to) &&
          match Q with Some q => PieceKind_eqb (kind q) King | None => false end
       then 1%nat else 0%nat).
Proof.
  intros Hl Hfr Hto HP HQ. unfold swapPieces.
  rewrite HP, HQ. simpl.
  rewrite setitem_on_board by assumption. simpl.
  rewrite setitem_on_board by (rewrite ?length_insert; assumption). simpl.
  destruct (Z.eqb_spec fr to) as [-> | Hne]; simpl.
  - (* the piece is dropped on its own square *)
    rewrite getitem_insert_eq by (rewrite ?length_insert; assumption). simpl.
    destruct P as [p|]; simpl; board_run;
      eexists _, _; (split; [reflexivity|]); simpl;
      repeat split; solve [board_solve].
  - board_run.
    destruct Q as [q|], P as [p|]; simpl; board_run;
      eexists _, _; (split; [reflexivity|]); simpl;
      repeat split; try solve [board_solve].
    all: try (unfold game_overs; destruct (PieceKind_eqb (kind q) King); reflexivity).
    all: intros q' _ [= <-]; destruct (PieceKind_eqb (kind q) King); simpl; tauto.
Qed.

Lemma PieceKind_eqb_eq (a b : PieceKind) : PieceKind_eqb a b = true <-> a = b.
Proof. destruct a, b; simpl; split; intros H; try discriminate; reflexivity. Qed.

(** C5. For two different squares of the board with a piece on [fr], after
    [swapPieces fr to] the slot [fr] holds [None], the slot [to] holds the
    piece that stood on [fr] with its [square] attribute equal to [to], a
    piece that stood on [to] has been detached from the scene and is no
    longer referenced by its slot, and no other slot has changed. *)
Theorem swapPieces_moves_the_piece (d : Demo) (fr to : Z) (p : Piece) :
  length (pieces d) = 64%nat -> on_board fr -> on_board to -> fr <> to ->
  Py.getitem (pieces d) fr = Ok (Some p) ->
  exists d',
    swapPieces fr to d = Ok d' /\
    Py.getitem (pieces d') fr = Ok None /\
    Py.getitem (pieces d') to = Ok (Some (set_square to p)) /\
    (forall q, Py.getitem (pieces d) to = Ok (Some q) ->
               In (DetachNode q) (screen d')) /\
    (forall i, on_board i -> i <> fr -> i <> to ->
               Py.getitem (pieces d') i = Py.getitem (pieces d) i).
Proof.
  intros Hl Hfr Hto Hne HP.
  destruct (getitem_on_board (pieces d) to Hl Hto) as (Q & _ & HQ).
  destruct (swapPieces_spec d fr to (Some p) Q Hl Hfr Hto HP HQ)
    as (d' & log & Hrun & _ & _ & Hscreen & _ & Hat_to & Hat_fr & Hrest & Hdet & _).
  exists d'. repeat split; auto.
  intros q Hq. rewrite Hscreen. apply in_app_iff. right.
  apply Hdet; [exact Hne | congruence].
Qed.

Lemma swapPieces_moves_the_piece_witness :
  exists d',
    swapPieces 8 16 init_demo = Ok d' /\
    Py.getitem (pieces d') 8 = Ok None /\
    Py.getitem (pieces d') 16 = Ok (Some (set_square 16 (new_piece Pawn 8 WHITE))) /\
    (forall q, Py.getitem (pieces init_demo) 16 = Ok (Some q) ->
               In (DetachNode q) (screen d')) /\
    (forall i, on_board i -> i <> 8 -> i <> 16 ->
               Py.getitem (pieces d') i = Py.getitem (pieces init_demo) i).
Proof.
  apply (swapPieces_moves_the_piece init_demo 8 16 (new_piece Pawn 8 WHITE)).
  - reflexivity.
  - unfold on_board; lia.
  - unfold on_board; lia.
  - lia.
  - reflexivity.
Defined.

(** C6. [swapPieces fr to] announces the end of the game exactly when the
    two squares differ and the piece that stood on [to] is a king, and then
    it does so once; a captured piece of another kind, an empty target or a
    piece dropped on its own square announce nothing. *)
Theorem swapPieces_game_over_iff_king_captured (d : Demo) (fr to : Z) :
  length (pieces d) = 64%nat -> on_board fr -> on_board to ->
  exists d' log,
    swapPieces fr to d = Ok d' /\
    screen d' = screen d ++ log /\
    (game_overs log = 1%nat \/ game_overs log = 0%nat) /\
    (game_overs log = 1%nat <->
     fr <> to /\
     exists q, Py.getitem (pieces d) to = Ok (Some q) /\ kind q = King).
Proof.
  intros Hl Hfr Hto.
  destruct (getitem_on_board (pieces d) fr Hl Hfr) as (P & _ & HP).
  destruct (getitem_on_board (pieces d) to Hl Hto) as (Q & _ & HQ).
  destruct (swapPieces_spec d fr to P Q Hl Hfr Hto HP HQ)
    as (d' & log & Hrun & _ & _ & Hscreen & _ & _ & _ & _ & _ & Hcount).
  exists d', log. split; [exact Hrun|]. split; [exact Hscreen|].
  rewrite Hcount, HQ. clear Hcount Hrun Hscreen.
  destruct (Z.eqb_spec fr to) as [Heq | Hne]; simpl.
  - split; [now right|]. split; [discriminate | intros [Hne _]; contradiction].
  - destruct Q as [q|].
    + destruct (PieceKind_eqb (kind q) King) eqn:E.
      * split; [now left|]. split; [|reflexivity]. intros _. split; [exact Hne|].
        exists q. split; [reflexivity|]. now apply PieceKind_eqb_eq.
      * split; [now right|]. split; [discriminate|].
        intros [_ (q' & [= <-] & Hk)]. apply PieceKind_eqb_eq in Hk. congruence.
    + split; [now right|]. split; [discriminate|].
      intros [_ (q' & [=] & _)].
Qed.

Lemma swapPieces_game_over_iff_king_captured_witness :
  exists d' log,
    swapPieces 3 60 init_demo = Ok d' /\
    screen d' = screen init_demo ++ log /\
    (game_overs log = 1%nat \/ game_overs log = 0%nat) /\
    (game_overs log = 1%nat <->
     3 <> 60 /\
     exists q, Py.getitem (pieces init_demo) 60 = Ok (Some q) /\ kind q = King).
Proof.
  apply (swapPieces_game_over_iff_king_captured init_demo 3 60).
  - reflexivity.
  - unfold on_board; lia.
  - unfold on_board; lia.
Defined.

(** * The drag state machine *)

(** [grabPiece] starts a drag only from an occupied square. *)
Lemma grabPiece_drags_a_piece (d d' : Demo) (s : Z) :
  dragging d = None -> grabPiece d = Ok d' -> dragging d' = Some s ->
  hiSq d = Some s /\ pieces d' = pieces d /\
  exists p, Py.getitem (pieces d) s = Ok (Some p).
Proof.
  unfold grabPiece. intros Hd Hrun Hs.
  destruct (hiSq d) as [h|]; [|injection Hrun as <-; congruence].
  destruct (Py.getitem (pieces d) h) as [[p|]| |] eqn:E; simpl in Hrun;
    try discriminate.
  - injection Hrun as <-. simpl in *. injection Hs as ->. eauto.
  - injection Hrun as <-. congruence.
Qed.

Lemma put_back_spec (d : Demo) (s : Z) (p : Piece) :
  Py.getitem (pieces d) s = Ok (Some p) ->
  put_back s d = Ok {| pieces := pieces d; hiSq := hiSq d;
                       dragging := dragging d;
                       screen := screen d ++ [SetPos p s] |}.
Proof. intros H. unfold put_back. now rewrite H. Qed.

(** A release over a valid target applies the move. *)
Lemma releasePiece_applies_move (d : Demo) (s h : Z) (p : Piece) :
  length (pieces d) = 64%nat -> on_board s -> on_board h ->
  dragging d = Some s -> hiSq d = Some h ->
  Py.getitem (pieces d) s = Ok (Some p) ->
  isVaidMove (pieces d) p s h = Ok true ->
  exists d',
    releasePiece d = Ok d' /\ dragging d' = None /\
    Py.getitem (pieces d') h
    = Ok (Some (set_square h (set_is_first_move false p))).
Proof.
  intros Hl Hs Hh Hdrag Hhi Hp Hvalid. unfold releasePiece.
  rewrite Hdrag, Hhi, Hp. simpl. rewrite Hvalid. simpl.
  rewrite setitem_on_board by assumption. simpl.
  set (d1 := {| pieces := <[Z.to_nat s := Some (set_is_first_move false p)]> (pieces d);
                hiSq := Some h; dragging := Some s; screen := screen d |}).
  destruct (getitem_on_board (pieces d1) h) as (Q & _ & HQ);
    [simpl; now rewrite length_insert | exact Hh |].
  destruct (swapPieces_spec d1 s h (Some (set_is_first_move false p)) Q)
    as (d' & log & Hrun & _ & _ & _ & _ & Hat & _);
    [simpl; now rewrite length_insert | exact Hs | exact Hh
    | simpl; now apply getitem_insert_eq | exact HQ |].
  rewrite Hrun. simpl. eexists. split; [reflexivity|]. simpl.
  split; [reflexivity | exact Hat].
Qed.

(** C7. While a piece is dragged from [s], a release over no square, or
    over a square the piece may not move to, leaves the list of slots and
    every attribute of every piece as they were; and whenever
    [releasePiece] returns, [dragging] is [False]. It does return from
    every state in which the dragged square and the hovered square are on
    the board and the dragged piece is built from the class tables. *)
Theorem releasePiece_rejected_keeps_board :
  (forall (d : Demo) (s : Z) (p : Piece),
      dragging d = Some s ->
      Py.getitem (pieces d) s = Ok (Some p) ->
      hiSq d = None \/
      (exists h, hiSq d = Some h /\ isVaidMove (pieces d) p s h = Ok false) ->
      exists d',
        releasePiece d = Ok d' /\ pieces d' = pieces d /\ dragging d' = None) /\
  (forall d d' : Demo, releasePiece d = Ok d' -> dragging d' = None) /\
  (forall (d : Demo),
      length (pieces d) = 64%nat ->
      (forall s, dragging d = Some s ->
                 on_board s /\
                 exists p, Py.getitem (pieces d) s = Ok (Some p) /\ table_piece p) ->
      (forall h, hiSq d = Some h -> on_board h) ->
      exists d', releasePiece d = Ok d').
Proof.
  split; [|split].
  - intros d s p Hdrag Hp Hrej. unfold releasePiece. rewrite Hdrag.
    destruct Hrej as [Hhi | (h & Hhi & Hinvalid)]; rewrite Hhi.
    + rewrite (put_back_spec d s p Hp). simpl. eauto.
    + rewrite Hp. simpl. rewrite Hinvalid. simpl.
      rewrite (put_back_spec d s p Hp). simpl. eauto.
  - intros d d' Hrun. unfold releasePiece in Hrun.
    match type of Hrun with mbind _ ?m = _ => destruct m as [d1| |] end;
      simpl in Hrun; try discriminate.
    injection Hrun as <-. reflexivity.
  - intros d Hl Hdrag Hhi.
    destruct (dragging d) as [s|] eqn:Es.
    + destruct (Hdrag s eq_refl) as (Hs & p & Hp & Htable).
      destruct (hiSq d) as [h|] eqn:Eh.
      * specialize (Hhi h eq_refl).
        destruct (isVaidMove_legal (pieces d) p s h Hl Hs Hhi Hp Htable)
          as ([|] & Hb & _).
        -- destruct (releasePiece_applies_move d s h p) as (d' & Hrun & _);
             auto. eauto.
        -- unfold releasePiece. rewrite Es, Eh, Hp. simpl. rewrite Hb. simpl.
           rewrite (put_back_spec d s p Hp). simpl. eauto.
      * unfold releasePiece. rewrite Es, Eh.
        rewrite (put_back_spec d s p Hp). simpl. eauto.
    + unfold releasePiece. rewrite Es. simpl. eauto.
Qed.

Lemma releasePiece_rejected_keeps_board_witness :
  exists d',
    releasePiece {| pieces := init_pieces; hiSq := Some 24; dragging := Some 0;
                    screen := [] |} = Ok d' /\
    pieces d' = init_pieces /\ dragging d' = None.
Proof.
  apply (proj1 releasePiece_rejected_keeps_board
           {| pieces := init_pieces; hiSq := Some 24; dragging := Some 0;
              screen := [] |} 0 (new_piece Rook 0 WHITE)).
  - reflexivity.
  - reflexivity.
  - right. exists 24. split; [reflexivity | vm_compute; reflexivity].
Defined.

(** C8 (the code departs from it). [is_first_move] is false when a piece is
    built, and the release that applies a piece's first move writes false
    again: dragging the white pawn of square 8 to square 16 on the starting
    board leaves the pawn on square 16 with the flag still false, so the
    flag never records that the piece has moved. *)
Theorem is_first_move_stays_false :
  (forall k sq c, is_first_move (new_piece k sq c) = false) /\
  exists d' q,
    isVaidMove init_pieces (new_piece Pawn 8 WHITE) 8 16 = Ok true /\
    releasePiece {| pieces := init_pieces; hiSq := Some 16; dragging := Some 8;
                    screen := [] |} = Ok d' /\
    Py.getitem (pieces d') 8 = Ok None /\
    Py.getitem (pieces d') 16 = Ok (Some q) /\
    kind q = Pawn /\ square q = Some 16 /\ is_first_move q = false.
Proof.
  split; [reflexivity|].
  eexists _, _. split; [vm_compute; reflexivity|].
  split; [vm_compute; reflexivity|].
  repeat split; reflexivity.
Qed.


(** * The board colours *)

Lemma SquareColor_parity (i : Z) :
  SquareColor i = if Z.even (i mod 8 + i / 8) then WHITE else BLACK.
Proof.
  unfold SquareColor.
  destruct (Z.even (i mod 8 + i / 8)) eqn:E.
  - apply Z.even_spec in E as [k Hk].
    destruct (Z.eqb_spec ((i + (i / 8) mod 2) mod 2) 0) as [_ | Hn];
      [reflexivity | exfalso; apply Hn].
    revert Hk. generalize (i / 8), (i mod 8), (Z.div_mod i 8 ltac:(lia)).
    intros r f Hi Hk. Z.div_mod_to_equations. lia.
  - assert (Ho : Z.odd (i mod 8 + i / 8) = true)
      by (rewrite <- Z.negb_even, E; reflexivity).
    apply Z.odd_spec in Ho as [k Hk].
    destruct (Z.eqb_spec ((i + (i / 8) mod 2) mod 2) 0) as [Hz | _];
      [exfalso | reflexivity].
    revert Hk Hz. generalize (i / 8), (i mod 8), (Z.div_mod i 8 ltac:(lia)).
    intros r f Hi Hk Hz. Z.div_mod_to_equations. lia.
Qed.

(** X1. [SquareColor] is the checkerboard: a square is white exactly when
    the sum of its file and its rank is even. This holds for every integer
    index, not only on the board. *)
Theorem SquareColor_checkerboard (i : Z) :
  SquareColor i = if Z.even (i mod 8 + i / 8) then WHITE else BLACK.
Proof. exact (SquareColor_parity i). Qed.

Lemma Color_flip (a b : Z) :
  Z.even a = negb (Z.even b) ->
  (if Z.even a then WHITE else BLACK) <> (if Z.even b then WHITE else BLACK).
Proof. intros ->. destruct (Z.even b); discriminate. Qed.

(** X2. Neighbouring squares have different colours: the square one rank
    up always, and the next square of the same rank (any square but the
    last of its rank). *)
Theorem SquareColor_alternates (i : Z) :
  SquareColor (i + 8) <> SquareColor i /\
  (i mod 8 <> 7 -> SquareColor (i + 1) <> SquareColor i).
Proof.
  rewrite !SquareColor_parity. split.
  - apply Color_flip.
    replace ((i + 8) mod 8 + (i + 8) / 8) with (Z.succ (i mod 8 + i / 8))
      by (Z.div_mod_to_equations; lia).
    now rewrite Z.even_succ, <- Z.negb_even.
  - intros H7. apply Color_flip.
    replace ((i + 1) mod 8 + (i + 1) / 8) with (Z.succ (i mod 8 + i / 8))
      by (Z.div_mod_to_equations; lia).
    now rewrite Z.even_succ, <- Z.negb_even.
Qed.

Lemma SquareColor_alternates_witness :
  SquareColor (27 + 1) <> SquareColor 27.
Proof.
  apply (proj2 (SquareColor_alternates 27)). vm_compute. discriminate.
Defined.

(** X3. A bishop never leaves the colour it stands on: whenever
    [isVaidMove] accepts a move of a piece with the bishop's table, the
    target square has the colour of the source square. *)
Theorem bishop_keeps_square_color (ps : Board) (p : Piece) (s t : Z) :
  length ps = 64%nat -> on_board s -> on_board t ->
  Py.getitem ps s = Ok (Some p) ->
  kind p = Bishop -> limit p = false -> moves p = class_moves Bishop ->
  isVaidMove ps p s t = Ok true ->
  SquareColor t = SquareColor s.
Proof.
  intros Hl Hs Ht Hps Hk Hlim Hm Hvalid.
  assert (Hp : table_piece p).
  { split; [rewrite Hk; exact Hlim | left; rewrite Hk; exact Hm]. }
  destruct (isVaidMove_legal ps p s t Hl Hs Ht Hps Hp) as (b & Hb & Hiff).
  rewrite Hb in Hvalid. injection Hvalid as ->.
  destruct (proj1 Hiff eq_refl) as [(move & k & Hin & Hk1 & _ & Hx & Hy & _) _].
  rewrite !SquareColor_parity.
  unfold xDistance, yDistance in Hx, Hy.
  assert (Hsum : exists j, t mod 8 + t / 8 = s mod 8 + s / 8 + 2 * j).
  { rewrite Hm in Hin. simpl in Hin.
    destruct Hin as [<- | [<- | [<- | [<- | []]]]]; simpl in Hx, Hy.
    - exists k. lia.
    - exists 0. lia.
    - exists 0. lia.
    - exists (- k). lia. }
  destruct Hsum as [j ->].
  now rewrite Z.even_add_mul_2.
Qed.

Lemma bishop_keeps_square_color_witness :
  SquareColor 20 = SquareColor 2.
Proof.
  apply (bishop_keeps_square_color (lone (new_piece Bishop 2 WHITE) 2)
           (new_piece Bishop 2 WHITE) 2 20).
  - reflexivity.
  - unfold on_board; lia.
  - unfold on_board; lia.
  - reflexivity.
  - reflexivity.
  - reflexivity.
  - reflexivity.
  - vm_compute. reflexivity.
Defined.

(** * What the legality check decides *)

(** X4. On a 64-slot board, for a piece standing on its source square and
    built from the class tables, [isVaidMove] returns true exactly when
    some vector of the piece's table reaches the target (in one step for a
    limited piece, in [k >= 1] steps over empty squares for a ranged one)
    and the target does not hold a piece of the mover's side; it returns
    false otherwise. Capturing a piece of the other side is therefore valid
    under the same vector and obstruction rules as moving to an empty
    square. *)
Theorem isVaidMove_decides (ps : Board) (p : Piece) (s t : Z) :
  length ps = 64%nat -> on_board s -> on_board t ->
  Py.getitem ps s = Ok (Some p) -> table_piece p ->
  exists b,
    isVaidMove ps p s t = Ok b /\
    (b = true <-> reaches ps p s t /\ ~ own_side_at ps p t).
Proof. apply isVaidMove_legal. Qed.

Lemma isVaidMove_decides_witness :
  exists b,
    isVaidMove init_pieces (new_piece Knight 1 WHITE) 1 18 = Ok b /\
    (b = true <->
     reaches init_pieces (new_piece Knight 1 WHITE) 1 18 /\
     ~ own_side_at init_pieces (new_piece Knight 1 WHITE) 18).
Proof.
  apply (isVaidMove_decides init_pieces (new_piece Knight 1 WHITE) 1 18).
  - reflexivity.
  - unfold on_board; lia.
  - unfold on_board; lia.
  - reflexivity.
  - split; [reflexivity | left; reflexivity].
Defined.

(** X5. A limited piece (pawn, knight, king) jumps: whether its move is
    valid depends on the displacement and on the target square only. It is
    valid exactly when the displacement is one of its vectors and the
    target holds no piece of its side, whatever stands on the other
    squares and whether or not the target holds a piece of the other side
    (so a pawn may also capture straight ahead). *)
Theorem limited_piece_valid_iff (ps : Board) (p : Piece) (s t : Z) :
  length ps = 64%nat -> on_board s -> on_board t ->
  Py.getitem ps s = Ok (Some p) -> table_piece p -> limit p = true ->
  exists b,
    isVaidMove ps p s t = Ok b /\
    (b = true <->
     In (xDistance s t, yDistance s t) (moves p) /\
     forall q, Py.getitem ps t = Ok (Some q) -> white q <> white p).
Proof.
  intros Hl Hs Ht Hps Hp Hlim.
  destruct (isVaidMove_legal ps p s t Hl Hs Ht Hps Hp) as (b & Hb & Hiff).
  exists b. split; [exact Hb|]. rewrite Hiff. clear Hiff Hb. split.
  - intros [(move & k & Hin & _ & Hk & Hx & Hy & _) Hown].
    rewrite (Hk Hlim) in Hx, Hy. split.
    + destruct move as [m0 m1]. simpl in Hx, Hy.
      replace (xDistance s t) with m0 by lia.
      replace (yDistance s t) with m1 by lia. exact Hin.
    + intros q Hq Hw. apply Hown. exists q. split; [|exact Hw].
      now apply getitem_lookup in Hq.
  - intros [Hin Hother]. split.
    + exists (xDistance s t, yDistance s t), 1. simpl.
      repeat split; try lia; try assumption.
    + intros (q & Hq & Hw). apply (Hother q); [|exact Hw].
      now apply getitem_lookup.
Qed.

Lemma limited_piece_valid_iff_witness :
  exists b,
    isVaidMove (<[16%nat := Some (new_piece Pawn 16 PIECEBLACK)]> init_pieces)
               (new_piece Pawn 8 WHITE) 8 16 = Ok b /\
    (b = true <->
     In (xDistance 8 16, yDistance 8 16) (moves (new_piece Pawn 8 WHITE)) /\
     forall q,
       Py.getitem (<[16%nat := Some (new_piece Pawn 16 PIECEBLACK)]> init_pieces) 16
       = Ok (Some q) ->
       white q <> white (new_piece Pawn 8 WHITE)).
Proof.
  apply (limited_piece_valid_iff
           (<[16%nat := Some (new_piece Pawn 16 PIECEBLACK)]> init_pieces)
           (new_piece Pawn 8 WHITE) 8 16).
  - reflexivity.
  - unfold on_board; lia.
  - unfold on_board; lia.
  - reflexivity.
  - split; [reflexivity | left; reflexivity].
  - reflexivity.
Defined.

(** X6. Called the way [isVaidMove] calls it (the target [k] steps along
    the vector, the squares in between on the board), [isPieceBetween]
    returns true exactly when every square strictly between the two ends
    is empty; the two ends themselves are not looked at. *)
Theorem isPieceBetween_true_iff_path_empty (ps : Board) (move : Move) (s t k : Z) :
  length ps = 64%nat -> step move <> 0 -> 1 <= k <= 64 ->
  t = s + k * step move ->
  (forall j, 1 <= j < k -> on_board (s + j * step move)) ->
  exists b,
    isPieceBetween ps move s t = Ok b /\
    (b = true <->
     forall j, 1 <= j < k -> Py.getitem ps (s + j * step move) = Ok None).
Proof.
  intros Hl Hstep Hk Ht Hon.
  destruct (isPieceBetween_ray ps move Hl Hstep s t k Hk Ht Hon)
    as (b & Hb & Hiff).
  exists b. split; [exact Hb|]. rewrite Hiff. split.
  - intros H j Hj. apply getitem_lookup; auto.
  - intros H j Hj. apply getitem_lookup; auto.
Qed.

Lemma isPieceBetween_true_iff_path_empty_witness :
  exists b,
    isPieceBetween init_pieces (0, 1) 8 48 = Ok b /\
    (b = true <->
     forall j, 1 <= j < 5 -> Py.getitem init_pieces (8 + j * step (0, 1)) = Ok None).
Proof.
  apply (isPieceBetween_true_iff_path_empty init_pieces (0, 1) 8 48 5).
  - reflexivity.
  - vm_compute. discriminate.
  - lia.
  - reflexivity.
  - intros j Hj. unfold on_board, step. simpl. lia.
Defined.

(** X7. A vector whose linear step [dx + 8*dy] is zero (the null vector,
    or one such as [(8,-1)]) makes the scan stand still: between two
    different squares of the board the loop of [isPieceBetween] never
    exits, whatever number of iterations it is allowed. *)
Theorem isPieceBetween_zero_step_never_returns
    (ps : Board) (move : Move) (s t : Z) (fuel : nat) :
  length ps = 64%nat -> step move = 0 -> on_board s -> s <> t ->
  isPieceBetween_while fuel ps move (s + (move.1 + move.2 * 8)) t true = Loops /\
  isPieceBetween ps move s t = Loops.
Proof.
  intros Hl Hstep Hs Hne. unfold isPieceBetween.
  assert (Hcur : s + (move.1 + move.2 * 8) = s) by (unfold step in Hstep; lia).
  rewrite Hcur.
  split; apply isPieceBetween_while_stuck; assumption.
Qed.

Lemma isPieceBetween_zero_step_never_returns_witness :
  isPieceBetween_while 1000 init_pieces (8, -1) (3 + ((8, -1).1 + (8, -1).2 * 8)) 5 true
  = Loops /\
  isPieceBetween init_pieces (8, -1) 3 5 = Loops.
Proof.
  apply (isPieceBetween_zero_step_never_returns init_pieces (8, -1) 3 5 1000).
  - reflexivity.
  - reflexivity.
  - unfold on_board; lia.
  - lia.
Defined.

(** * Releasing a piece *)

(** Two 64-slot boards with the same slots are the same list. *)
Lemma board_ext {A} (l1 l2 : list A) :
  length l1 = 64%nat -> length l2 = 64%nat ->
  (forall i, on_board i -> Py.getitem l1 i = Py.getitem l2 i) ->
  l1 = l2.
Proof.
  intros H1 H2 Hall. apply list_eq. intros n.
  destruct (Nat.lt_ge_cases n 64) as [Hlt | Hge].
  - assert (Hn : on_board (Z.of_nat n)) by (unfold on_board; lia).
    specialize (Hall _ Hn).
    destruct (getitem_on_board l1 _ H1 Hn) as (x & Hx & Hg1).
    destruct (getitem_on_board l2 _ H2 Hn) as (y & Hy & Hg2).
    rewrite Nat2Z.id in Hx, Hy. rewrite Hx, Hy. congruence.
  - rewrite !lookup_ge_None_2 by lia. reflexivity.
Qed.

(** The board [swapPieces] leaves, as two slot updates of the old one. *)
Lemma swapPieces_board (d d' : Demo) (fr to : Z) (P : option Piece) :
  length (pieces d) = 64%nat -> on_board fr -> on_board to -> fr <> to ->
  Py.getitem (pieces d) fr = Ok P ->
  swapPieces fr to d = Ok d' ->
  pieces d' = <[Z.to_nat to := set_square to <$> P]>
                (<[Z.to_nat fr := None]> (pieces d)).
Proof.
  intros Hl Hfr Hto Hne HP Hrun.
  destruct (getitem_on_board (pieces d) to Hl Hto) as (Q & _ & HQ).
  destruct (swapPieces_spec d fr to P Q Hl Hfr Hto HP HQ)
    as (d2 & log & Hrun2 & _ & _ & _ & Hl' & Hat_to & Hat_fr & Hrest & _).
  rewrite Hrun in Hrun2. injection Hrun2 as <-.
  apply board_ext; [exact Hl' | now rewrite !length_insert |].
  intros i Hi.
  destruct (Z.eq_dec i to) as [-> | Hito].
  - rewrite Hat_to. symmetry.
    apply getitem_insert_eq; [now rewrite length_insert | exact Hto].
  - rewrite getitem_insert_ne by (rewrite ?length_insert; auto).
    destruct (Z.eq_dec i fr) as [-> | Hifr].
    + rewrite (Hat_fr Hne). symmetry. now apply getitem_insert_eq.
    + rewrite getitem_insert_ne by auto. now apply Hrest.
Qed.

(** The engine calls of [swapPieces], in order. *)
Lemma swapPieces_log (d d' : Demo) (fr to : Z) (P Q : option Piece) :
  length (pieces d) = 64%nat -> on_board fr -> on_board to -> fr <> to ->
  Py.getitem (pieces d) fr = Ok P -> Py.getitem (pieces d) to = Ok Q ->
  swapPieces fr to d = Ok d' ->
  screen d' =
  screen d ++
  match Q with
  | Some q =>
      [LoadModel King (-100) WHITE] ++
      (if PieceKind_eqb (kind q) King then [OnscreenText game_over_text] else []) ++
      [DetachNode q]
  | None => []
  end ++
  match P with
  | Some p => [SetPos (set_square to p) to]
  | None => []
  end.
Proof.
  intros Hl Hfr Hto Hne HP HQ. unfold swapPieces.
  rewrite HP, HQ. simpl.
  rewrite setitem_on_board by assumption. simpl.
  rewrite setitem_on_board by (rewrite ?length_insert; assumption). simpl.
  destruct (Z.eqb_spec fr to) as [|_]; [contradiction|]. simpl.
  board_run.
  destruct Q as [q|], P as [p|]; simpl; board_run;
    intros [= <-]; simpl; rewrite ?app_nil_r;
    try reflexivity;
    destruct (PieceKind_eqb (kind q) King); reflexivity.
Qed.

(** A valid move is never a move onto the square the piece stands on. *)
Lemma isVaidMove_true_elsewhere (ps : Board) (p : Piece) (s : Z) :
  Py.getitem ps s = Ok (Some p) -> isVaidMove ps p s s <> Ok true.
Proof.
  intros Hp. unfold isVaidMove. cbv zeta.
  destruct (isVaidMove_for _ _ _ _ _ _ _ _) as [v| |]; simpl; try discriminate.
  rewrite Hp. simpl. rewrite Bool.eqb_reflx. discriminate.
Qed.

(** A valid move never lands on a piece of the mover's side. *)
Lemma isVaidMove_true_target (ps : Board) (p q : Piece) (s t : Z) :
  isVaidMove ps p s t = Ok true -> Py.getitem ps t = Ok (Some q) ->
  white q <> white p.
Proof.
  unfold isVaidMove. cbv zeta. intros Hv Hq Hw.
  destruct (isVaidMove_for _ _ _ _ _ _ _ _) as [v| |]; simpl in Hv;
    try discriminate.
  rewrite Hq in Hv. simpl in Hv. rewrite Hw, Bool.eqb_reflx in Hv. discriminate.
Qed.

(** The two ways [releasePiece] returns while a piece is dragged over a
    square: the move is rejected and only the model is put back, or the
    move is valid and applied. *)
Lemma releasePiece_outcome (d d' : Demo) (s h : Z) (p : Piece) (Q : option Piece) :
  length (pieces d) = 64%nat -> on_board s -> on_board h ->
  dragging d = Some s -> hiSq d = Some h ->
  Py.getitem (pieces d) s = Ok (Some p) ->
  Py.getitem (pieces d) h = Ok Q ->
  releasePiece d = Ok d' ->
  dragging d' = None /\ hiSq d' = Some h /\
  ((isVaidMove (pieces d) p s h = Ok false /\
    pieces d' = pieces d /\ screen d' = screen d ++ [SetPos p s]) \/
   (isVaidMove (pieces d) p s h = Ok true /\ s <> h /\
    (forall q, Q = Some q -> white q <> white p) /\
    pieces d' =
      <[Z.to_nat h := Some (set_square h (set_is_first_move false p))]>
        (<[Z.to_nat s := None]> (pieces d)) /\
    screen d' =
      screen d ++
      match Q with
      | Some q =>
          [LoadModel King (-100) WHITE] ++
          (if PieceKind_eqb (kind q) King
           then [OnscreenText game_over_text] else []) ++
          [DetachNode q]
      | None => []
      end ++
      [SetPos (set_square h (set_is_first_move false p)) h])).
Proof.
  intros Hl Hs Hh Hdrag Hhi Hp HQ Hrun. unfold releasePiece in Hrun.
  rewrite Hdrag, Hhi, Hp in Hrun. simpl in Hrun.
  destruct (isVaidMove (pieces d) p s h) as [[|]| |] eqn:Hvalid;
    simpl in Hrun; try discriminate.
  - (* applied *)
    assert (Hne : s <> h).
    { intros ->. now apply (isVaidMove_true_elsewhere (pieces d) p h). }
    rewrite setitem_on_board in Hrun by assumption. simpl in Hrun.
    set (d1 := {| pieces := <[Z.to_nat s := Some (set_is_first_move false p)]> (pieces d);
                  hiSq := Some h; dragging := Some s; screen := screen d |}) in *.
    destruct (swapPieces s h d1) as [d2| |] eqn:Hswap; simpl in Hrun;
      try discriminate.
    injection Hrun as <-. simpl.
    assert (Hl1 : length (pieces d1) = 64%nat) by (simpl; now rewrite length_insert).
    assert (HP1 : Py.getitem (pieces d1) s = Ok (Some (set_is_first_move false p)))
      by (simpl; now apply getitem_insert_eq).
    assert (HQ1 : Py.getitem (pieces d1) h = Ok Q)
      by (simpl; rewrite getitem_insert_ne by auto; exact HQ).
    destruct (swapPieces_spec d1 s h _ Q Hl1 Hs Hh HP1 HQ1)
      as (d3 & log & Hrun3 & Hhi3 & _).
    rewrite Hswap in Hrun3. injection Hrun3 as <-.
    split; [reflexivity|]. split; [exact Hhi3|]. right.
    split; [reflexivity|]. split; [exact Hne|]. split.
    { intros q ->. now apply (isVaidMove_true_target (pieces d) p q s h). }
    split.
    + rewrite (swapPieces_board d1 d2 s h _ Hl1 Hs Hh Hne HP1 Hswap). simpl.
      f_equal. apply list_insert_insert_eq.
    + rewrite (swapPieces_log d1 d2 s h _ Q Hl1 Hs Hh Hne HP1 HQ1 Hswap).
      reflexivity.
  - (* rejected *)
    rewrite (put_back_spec d s p Hp) in Hrun. simpl in Hrun.
    injection Hrun as <-. simpl. split; [reflexivity|]. split; [exact Hhi|].
    left. auto.
Qed.

(** How [releasePiece] returns, in every state whose dragged and hovered
    squares are on the board: nothing was dragged; or the piece is put back
    (no square hovered, or the move rejected); or the move is applied. *)
Lemma releasePiece_cases (d d' : Demo) :
  length (pieces d) = 64%nat ->
  (forall s, dragging d = Some s -> on_board s) ->
  (forall h, hiSq d = Some h -> on_board h) ->
  releasePiece d = Ok d' ->
  dragging d' = None /\ hiSq d' = hiSq d /\
  ((pieces d' = pieces d /\
    exists log, screen d' = screen d ++ log /\
                (forall e, In e log -> exists p s, e = SetPos p s)) \/
   (exists s h p Q,
      dragging d = Some s /\ hiSq d = Some h /\ s <> h /\
      on_board s /\ on_board h /\
      Py.getitem (pieces d) s = Ok (Some p) /\
      Py.getitem (pieces d) h = Ok Q /\
      isVaidMove (pieces d) p s h = Ok true /\
      (forall q, Q = Some q -> white q <> white p) /\
      pieces d' =
        <[Z.to_nat h := Some (set_square h (set_is_first_move false p))]>
          (<[Z.to_nat s := None]> (pieces d)) /\
      screen d' =
        screen d ++
        match Q with
        | Some q =>
            [LoadModel King (-100) WHITE] ++
            (if PieceKind_eqb (kind q) King
             then [OnscreenText game_over_text] else []) ++
            [DetachNode q]
        | None => []
        end ++
        [SetPos (set_square h (set_is_first_move false p)) h])).
Proof.
  intros Hl Hdrag Hhi Hrun.
  destruct (dragging d) as [s|] eqn:Es.
  - specialize (Hdrag s eq_refl).
    destruct (getitem_on_board (pieces d) s Hl Hdrag) as (P & _ & HP).
    destruct (hiSq d) as [h|] eqn:Eh.
    + specialize (Hhi h eq_refl).
      destruct (getitem_on_board (pieces d) h Hl Hhi) as (Q & _ & HQ).
      destruct P as [p|].
      * destruct (releasePiece_outcome d d' s h p Q Hl Hdrag Hhi Es Eh HP HQ Hrun)
          as (Hd & Hh & [(_ & Hps & Hlog) | (Hv & Hne & Hside & Hps & Hlog)]).
        -- split; [exact Hd|]. split; [congruence|]. left.
           split; [exact Hps|]. eexists. split; [exact Hlog|].
           intros e [<- | []]. eauto.
        -- split; [exact Hd|]. split; [congruence|]. right.
           exists s, h, p, Q.
           split; [reflexivity|]. split; [reflexivity|]. split; [exact Hne|].
           split; [exact Hdrag|]. split; [exact Hhi|]. split; [exact HP|].
           split; [exact HQ|]. split; [exact Hv|]. split; [exact Hside|].
           split; [exact Hps | exact Hlog].
      * unfold releasePiece in Hrun. rewrite Es, Eh, HP in Hrun. discriminate.
    + unfold releasePiece in Hrun. rewrite Es, Eh in Hrun.
      destruct P as [p|].
      * rewrite (put_back_spec d s p HP) in Hrun. simpl in Hrun.
        injection Hrun as <-. simpl. split; [reflexivity|]. split; [exact Eh|].
        left. split; [reflexivity|]. eexists. split; [reflexivity|].
        intros e [<- | []]. eauto.
      * unfold put_back in Hrun. rewrite HP in Hrun. discriminate.
  - unfold releasePiece in Hrun. rewrite Es in Hrun. simpl in Hrun.
    injection Hrun as <-. simpl. split; [reflexivity|]. split; [reflexivity|].
    left. split; [reflexivity|]. exists []. split; [now rewrite app_nil_r|].
    intros e [].
Qed.

Lemma releasePiece_valid_slots (d : Demo) (s h : Z) (p : Piece) :
  length (pieces d) = 64%nat -> on_board s -> on_board h ->
  dragging d = Some s -> hiSq d = Some h ->
  Py.getitem (pieces d) s = Ok (Some p) ->
  isVaidMove (pieces d) p s h = Ok true ->
  exists d',
    releasePiece d = Ok d' /\ s <> h /\
    dragging d' = None /\ hiSq d' = Some h /\
    Py.getitem (pieces d') s = Ok None /\
    Py.getitem (pieces d') h
    = Ok (Some (set_square h (set_is_first_move false p))) /\
    (forall i, on_board i -> i <> s -> i <> h ->
               Py.getitem (pieces d') i = Py.getitem (pieces d) i).
Proof.
  intros Hl Hs Hh Hdrag Hhi Hp Hvalid.
  destruct (releasePiece_applies_move d s h p Hl Hs Hh Hdrag Hhi Hp Hvalid)
    as (d' & Hrun & _).
  destruct (getitem_on_board (pieces d) h Hl Hh) as (Q & _ & HQ).
  destruct (releasePiece_outcome d d' s h p Q Hl Hs Hh Hdrag Hhi Hp HQ Hrun)
    as (Hd & Hh' & [(Hv & _) | (_ & Hne & _ & Hps & _)]); [congruence|].
  exists d'. split; [exact Hrun|]. split; [exact Hne|].
  split; [exact Hd|]. split; [exact Hh'|]. rewrite Hps. split; [|split].
  - rewrite getitem_insert_ne by (rewrite ?length_insert; auto).
    now apply getitem_insert_eq.
  - apply getitem_insert_eq; [now rewrite length_insert | exact Hh].
  - intros i Hi His Hih.
    now rewrite !getitem_insert_ne by (rewrite ?length_insert; auto).
Qed.

(** X8. A release over a square the dragged piece may move to applies the
    move: the two squares differ, the source slot becomes [None], the
    target slot holds the dragged piece with [square] set to the target
    (and [is_first_move] written false), every other slot is untouched, the
    drag is over and the hovered square stays recorded. *)
Theorem releasePiece_applies_valid_move (d : Demo) (s h : Z) (p : Piece) :
  length (pieces d) = 64%nat -> on_board s -> on_board h ->
  dragging d = Some s -> hiSq d = Some h ->
  Py.getitem (pieces d) s = Ok (Some p) ->
  isVaidMove (pieces d) p s h = Ok true ->
  exists d',
    releasePiece d = Ok d' /\ s <> h /\
    dragging d' = None /\ hiSq d' = Some h /\
    Py.getitem (pieces d') s = Ok None /\
    Py.getitem (pieces d') h
    = Ok (Some (set_square h (set_is_first_move false p))) /\
    (forall i, on_board i -> i <> s -> i <> h ->
               Py.getitem (pieces d') i = Py.getitem (pieces d) i).
Proof. apply releasePiece_valid_slots. Qed.

Lemma releasePiece_applies_valid_move_witness :
  exists d',
    releasePiece rook_takes_king = Ok d' /\ 0 <> 56 /\
    dragging d' = None /\ hiSq d' = Some 56 /\
    Py.getitem (pieces d') 0 = Ok None /\
    Py.getitem (pieces d') 56
    = Ok (Some (set_square 56 (set_is_first_move false corner_rook))) /\
    (forall i, on_board i -> i <> 0 -> i <> 56 ->
               Py.getitem (pieces d') i = Py.getitem (pieces rook_takes_king) i).
Proof.
  apply (releasePiece_applies_valid_move rook_takes_king 0 56 corner_rook).
  - reflexivity.
  - unfold on_board; lia.
  - unfold on_board; lia.
  - reflexivity.
  - reflexivity.
  - reflexivity.
  - vm_compute. reflexivity.
Defined.

(** [releasePiece] returns from every structurally valid state: 64 slots,
    a dragged square on the board holding a piece built from the class
    tables, a hovered square on the board. *)
Lemma releasePiece_returns (d : Demo) :
  length (pieces d) = 64%nat ->
  (forall s, dragging d = Some s ->
             on_board s /\
             exists p, Py.getitem (pieces d) s = Ok (Some p) /\ table_piece p) ->
  (forall h, hiSq d = Some h -> on_board h) ->
  exists d', releasePiece d = Ok d'.
Proof.
  intros Hl Hdrag Hhi.
  destruct (dragging d) as [s|] eqn:Es.
  - destruct (Hdrag s eq_refl) as (Hs & p & Hp & Htable).
    destruct (hiSq d) as [h|] eqn:Eh.
    + specialize (Hhi h eq_refl).
      destruct (isVaidMove_legal (pieces d) p s h Hl Hs Hhi Hp Htable)
        as ([|] & Hb & _).
      * destruct (releasePiece_applies_move d s h p) as (d' & Hrun & _);
          auto. eauto.
      * unfold releasePiece. rewrite Es, Eh, Hp. simpl. rewrite Hb. simpl.
        rewrite (put_back_spec d s p Hp). simpl. eauto.
    + unfold releasePiece. rewrite Es, Eh.
      rewrite (put_back_spec d s p Hp). simpl. eauto.
  - unfold releasePiece. rewrite Es. simpl. eauto.
Qed.

Lemma releasePiece_detached_if_returns (d d' : Demo) :
  length (pieces d) = 64%nat ->
  (forall s, dragging d = Some s -> on_board s) ->
  (forall h, hiSq d = Some h -> on_board h) ->
  releasePiece d = Ok d' ->
  exists log,
    screen d' = screen d ++ log /\
    forall q, In (DetachNode q) log ->
      exists s h p,
        dragging d = Some s /\ hiSq d = Some h /\
        Py.getitem (pieces d) s = Ok (Some p) /\
        Py.getitem (pieces d) h = Ok (Some q) /\
        white q <> white p /\
        isVaidMove (pieces d) p s h = Ok true.
Proof.
  intros Hl Hdrag Hhi Hrun.
  destruct (releasePiece_cases d d' Hl Hdrag Hhi Hrun)
    as (_ & _ & [(_ & log & Hlog & Honly)
                | (s & h & p & Q & Es & Eh & _ & _ & _ & HP & HQ & Hv & Hside & _ & Hlog)]).
  - exists log. split; [exact Hlog|]. intros q Hin.
    destruct (Honly _ Hin) as (p & s & [=]).
  - eexists. split; [exact Hlog|]. intros q Hin.
    exists s, h, p.
    assert (HQq : Q = Some q).
    { destruct Q as [q0|]; simpl in Hin.
      - destruct Hin as [[=] | Hin].
        apply in_app_iff in Hin as [Hin | Hin].
        + apply in_app_iff in Hin as [Hin | [[= ->] | []]]; [|reflexivity].
          destruct (PieceKind_eqb (kind q0) King); simpl in Hin;
            [destruct Hin as [[=] | []] | destruct Hin].
        + destruct Hin as [[=] | []].
      - destruct Hin as [[=] | []]. }
    subst Q. repeat split; auto.
Qed.

(** X9. [releasePiece] never removes a piece of the mover's side: every
    piece it detaches stood on the hovered square, belongs to the other
    side than the dragged piece, and is detached only when [isVaidMove]
    accepted the move. The release itself returns from every state whose
    dragged and hovered squares are on the board and whose dragged piece is
    built from the class tables. *)
Theorem releasePiece_detaches_only_captured (d : Demo) :
  length (pieces d) = 64%nat ->
  (forall s, dragging d = Some s ->
             on_board s /\
             exists p, Py.getitem (pieces d) s = Ok (Some p) /\ table_piece p) ->
  (forall h, hiSq d = Some h -> on_board h) ->
  exists d' log,
    releasePiece d = Ok d' /\
    screen d' = screen d ++ log /\
    forall q, In (DetachNode q) log ->
      exists s h p,
        dragging d = Some s /\ hiSq d = Some h /\
        Py.getitem (pieces d) s = Ok (Some p) /\
        Py.getitem (pieces d) h = Ok (Some q) /\
        white q <> white p /\
        isVaidMove (pieces d) p s h = Ok true.
Proof.
  intros Hl Hdrag Hhi.
  destruct (releasePiece_returns d Hl Hdrag Hhi) as [d' Hrun].
  destruct (releasePiece_detached_if_returns d d' Hl) as (log & Hlog & Hdet);
    [intros s Hs; now apply Hdrag | exact Hhi | exact Hrun |].
  exists d', log. auto.
Qed.

Lemma releasePiece_detaches_only_captured_witness :
  exists d' log,
    releasePiece rook_takes_king = Ok d' /\
    screen d' = screen rook_takes_king ++ log /\
    forall q, In (DetachNode q) log ->
      exists s h p,
        dragging rook_takes_king = Some s /\ hiSq rook_takes_king = Some h /\
        Py.getitem (pieces rook_takes_king) s = Ok (Some p) /\
        Py.getitem (pieces rook_takes_king) h = Ok (Some q) /\
        white q <> white p /\
        isVaidMove (pieces rook_takes_king) p s h = Ok true.
Proof.
  apply (releasePiece_detaches_only_captured rook_takes_king).
  - reflexivity.
  - intros s [= <-]. split; [unfold on_board; lia|].
    exists corner_rook. split; [reflexivity|].
    split; [reflexivity | left; reflexivity].
  - intros h [= <-]. unfold on_board; lia.
Defined.

Lemma releasePiece_game_over_if_returns (d d' : Demo) :
  length (pieces d) = 64%nat ->
  (forall s, dragging d = Some s -> on_board s) ->
  (forall h, hiSq d = Some h -> on_board h) ->
  releasePiece d = Ok d' ->
  exists log,
    screen d' = screen d ++ log /\
    (game_overs log <= 1)%nat /\
    (game_overs log = 1%nat <->
     exists s h p q,
       dragging d = Some s /\ hiSq d = Some h /\
       Py.getitem (pieces d) s = Ok (Some p) /\
       Py.getitem (pieces d) h = Ok (Some q) /\ kind q = King /\
       isVaidMove (pieces d) p s h = Ok true).
Proof.
  intros Hl Hdrag Hhi Hrun.
  destruct (releasePiece_cases d d' Hl Hdrag Hhi Hrun)
    as (_ & _ & [(Hps & log & Hlog & Honly)
                | (s & h & p & Q & Es & Eh & _ & _ & _ & HP & HQ & Hv & _ & _ & Hlog)]).
  - exists log. split; [exact Hlog|].
    assert (H0 : game_overs log = 0%nat).
    { unfold game_overs. clear Hlog. induction log as [|e log IH]; [reflexivity|].
      destruct (Honly e (or_introl eq_refl)) as (p & s & ->).
      rewrite filter_cons_False by (simpl; tauto).
      apply IH. intros e' He'. apply Honly. now right. }
    rewrite H0. split; [lia|]. split; [discriminate|].
    intros (s & h & p & q & Es & Eh & HP & HQ & _ & Hv). exfalso.
    unfold releasePiece in Hrun. rewrite Es, Eh, HP in Hrun. simpl in Hrun.
    rewrite Hv in Hrun. simpl in Hrun.
    assert (Hs : on_board s) by auto. assert (Hh : on_board h) by auto.
    destruct (releasePiece_outcome d d' s h p (Some q) Hl Hs Hh Es Eh HP HQ)
      as (_ & _ & [(Hv' & _) | (_ & _ & _ & _ & Hlog')]).
    { unfold releasePiece. rewrite Es, Eh, HP. simpl. rewrite Hv. exact Hrun. }
    + congruence.
    + rewrite Hlog in Hlog'. apply app_inv_head in Hlog'.
      assert (Hin : In (DetachNode q) log).
      { rewrite Hlog'. simpl. right. apply in_app_iff. left.
        apply in_app_iff. right. now left. }
      destruct (Honly _ Hin) as (? & ? & [=]).
  - eexists. split; [exact Hlog|].
    destruct Q as [q|].
    + destruct (PieceKind_eqb (kind q) King) eqn:Ek.
      * split; [vm_compute; lia|]. split; [|reflexivity]. intros _.
        exists s, h, p, q. apply PieceKind_eqb_eq in Ek. repeat split; auto.
      * split; [vm_compute; lia|]. split; [discriminate|].
        intros (s' & h' & p' & q' & Es' & Eh' & _ & HQ' & Hk & _).
        assert (h' = h) by congruence. subst h'.
        assert (q' = q) by congruence. subst q'.
        apply PieceKind_eqb_eq in Hk. congruence.
    + split; [vm_compute; lia|]. split; [discriminate|].
      intros (s' & h' & p' & q' & Es' & Eh' & _ & HQ' & _).
      assert (h' = h) by congruence. subst h'. congruence.
Qed.

(** X10. [releasePiece] announces the end of the game at most once, and it
    does so exactly when the dragged piece is released over a square it may
    move to and that square holds a king. *)
Theorem releasePiece_game_over_iff_king_taken (d : Demo) :
  length (pieces d) = 64%nat ->
  (forall s, dragging d = Some s ->
             on_board s /\
             exists p, Py.getitem (pieces d) s = Ok (Some p) /\ table_piece p) ->
  (forall h, hiSq d = Some h -> on_board h) ->
  exists d' log,
    releasePiece d = Ok d' /\
    screen d' = screen d ++ log /\
    (game_overs log <= 1)%nat /\
    (game_overs log = 1%nat <->
     exists s h p q,
       dragging d = Some s /\ hiSq d = Some h /\
       Py.getitem (pieces d) s = Ok (Some p) /\
       Py.getitem (pieces d) h = Ok (Some q) /\ kind q = King /\
       isVaidMove (pieces d) p s h = Ok true).
Proof.
  intros Hl Hdrag Hhi.
  destruct (releasePiece_returns d Hl Hdrag Hhi) as [d' Hrun].
  destruct (releasePiece_game_over_if_returns d d' Hl) as (log & Hlog & Hle & Hiff);
    [intros s Hs; now apply Hdrag | exact Hhi | exact Hrun |].
  exists d', log. auto.
Qed.

Lemma releasePiece_game_over_iff_king_taken_witness :
  exists d' log,
    releasePiece rook_takes_king = Ok d' /\
    screen d' = screen rook_takes_king ++ log /\
    (game_overs log <= 1)%nat /\
    (game_overs log = 1%nat <->
     exists s h p q,
       dragging rook_takes_king = Some s /\ hiSq rook_takes_king = Some h /\
       Py.getitem (pieces rook_takes_king) s = Ok (Some p) /\
       Py.getitem (pieces rook_takes_king) h = Ok (Some q) /\ kind q = King /\
       isVaidMove (pieces rook_takes_king) p s h = Ok true).
Proof.
  apply (releasePiece_game_over_iff_king_taken rook_takes_king).
  - reflexivity.
  - intros s [= <-]. split; [unfold on_board; lia|].
    exists corner_rook. split; [reflexivity|].
    split; [reflexivity | left; reflexivity].
  - intros h [= <-]. unfold on_board; lia.
Defined.


(** * Counting the pieces *)

Lemma occupied_insert (ps : Board) (i : nat) (x y : option Piece) :
  ps !! i = Some x ->
  (occupied (<[i := y]> ps) + match x with Some _ => 1 | None => 0 end
   = occupied ps + match y with Some _ => 1 | None => 0 end)%nat.
Proof.
  intros Hx. unfold occupied.
  rewrite insert_take_drop by (eapply lookup_lt_Some; exact Hx).
  rewrite <- (take_drop_middle ps i x Hx) at 3.
  rewrite !omap_app, !length_app. simpl.
  destruct x, y; simpl; lia.
Qed.

Lemma releasePiece_count_if_returns (d d' : Demo) :
  length (pieces d) = 64%nat ->
  (forall s, dragging d = Some s -> on_board s) ->
  (forall h, hiSq d = Some h -> on_board h) ->
  releasePiece d = Ok d' ->
  (occupied (pieces d') = occupied (pieces d) \/
   S (occupied (pieces d')) = occupied (pieces d)) /\
  (S (occupied (pieces d')) = occupied (pieces d) <->
   exists s h p q,
     dragging d = Some s /\ hiSq d = Some h /\
     Py.getitem (pieces d) s = Ok (Some p) /\
     Py.getitem (pieces d) h = Ok (Some q) /\
     isVaidMove (pieces d) p s h = Ok true).
Proof.
  intros Hl Hdrag Hhi Hrun.
  assert (Happlied : forall s h p Q,
             dragging d = Some s -> hiSq d = Some h -> s <> h ->
             Py.getitem (pieces d) s = Ok (Some p) ->
             Py.getitem (pieces d) h = Ok Q ->
             pieces d' =
               <[Z.to_nat h := Some (set_square h (set_is_first_move false p))]>
                 (<[Z.to_nat s := None]> (pieces d)) ->
             (occupied (pieces d') + match Q with Some _ => 1 | None => 0 end
              = occupied (pieces d))%nat).
  { intros s h p Q Es Eh Hne HP HQ ->.
    assert (Hs : on_board s) by auto. assert (Hh : on_board h) by auto.
    apply getitem_lookup in HP; [|assumption..].
    apply getitem_lookup in HQ; [|assumption..].
    pose proof (occupied_insert (pieces d) (Z.to_nat s) (Some p) None HP) as H1.
    assert (HQ' : <[Z.to_nat s := None]> (pieces d) !! Z.to_nat h = Some Q).
    { rewrite list_lookup_insert_ne; [exact HQ|].
      unfold on_board in Hs, Hh. lia. }
    pose proof (occupied_insert _ (Z.to_nat h) Q
                  (Some (set_square h (set_is_first_move false p))) HQ') as H2.
    destruct Q; simpl in *; lia. }
  destruct (releasePiece_cases d d' Hl Hdrag Hhi Hrun)
    as (_ & _ & [(Hps & _)
                | (s & h & p & Q & Es & Eh & Hne & Hs & Hh & HP & HQ & Hv & _ & Hps & _)]).
  - rewrite Hps. split; [now left|]. split; [lia|].
    intros (s & h & p & q & Es & Eh & HP & HQ & Hv). exfalso.
    assert (Hs : on_board s) by auto. assert (Hh : on_board h) by auto.
    destruct (releasePiece_outcome d d' s h p (Some q) Hl Hs Hh Es Eh HP HQ Hrun)
      as (_ & _ & [(Hv' & _) | (_ & Hne & _ & Hps' & _)]); [congruence|].
    pose proof (Happlied s h p (Some q) Es Eh Hne HP HQ Hps') as Hc.
    rewrite Hps in Hc. lia.
  - pose proof (Happlied s h p Q Es Eh Hne HP HQ Hps) as Hc.
    destruct Q as [q|].
    + split; [right; lia|]. split; [|lia]. intros _.
      exists s, h, p, q. auto.
    + split; [left; lia|]. split; [lia|].
      intros (s' & h' & p' & q' & Es' & Eh' & _ & HQ' & _).
      assert (h' = h) by congruence. subst h'. congruence.
Qed.

(** X11. [releasePiece] never adds a piece to the board and removes at most
    one: the number of occupied slots stays the same, or drops by one, and
    it drops exactly when a valid move lands on an occupied square. *)
Theorem releasePiece_piece_count (d : Demo) :
  length (pieces d) = 64%nat ->
  (forall s, dragging d = Some s ->
             on_board s /\
             exists p, Py.getitem (pieces d) s = Ok (Some p) /\ table_piece p) ->
  (forall h, hiSq d = Some h -> on_board h) ->
  exists d',
    releasePiece d = Ok d' /\
    (occupied (pieces d') = occupied (pieces d) \/
     S (occupied (pieces d')) = occupied (pieces d)) /\
    (S (occupied (pieces d')) = occupied (pieces d) <->
     exists s h p q,
       dragging d = Some s /\ hiSq d = Some h /\
       Py.getitem (pieces d) s = Ok (Some p) /\
       Py.getitem (pieces d) h = Ok (Some q) /\
       isVaidMove (pieces d) p s h = Ok true).
Proof.
  intros Hl Hdrag Hhi.
  destruct (releasePiece_returns d Hl Hdrag Hhi) as [d' Hrun].
  exists d'. split; [exact Hrun|].
  apply releasePiece_count_if_returns; auto.
  intros s Hs. now apply Hdrag.
Qed.

Lemma releasePiece_piece_count_witness :
  exists d',
    releasePiece rook_takes_king = Ok d' /\
    (occupied (pieces d') = occupied (pieces rook_takes_king) \/
     S (occupied (pieces d')) = occupied (pieces rook_takes_king)) /\
    (S (occupied (pieces d')) = occupied (pieces rook_takes_king) <->
     exists s h p q,
       dragging rook_takes_king = Some s /\ hiSq rook_takes_king = Some h /\
       Py.getitem (pieces rook_takes_king) s = Ok (Some p) /\
       Py.getitem (pieces rook_takes_king) h = Ok (Some q) /\
       isVaidMove (pieces rook_takes_king) p s h = Ok true).
Proof.
  apply (releasePiece_piece_count rook_takes_king).
  - reflexivity.
  - intros s [= <-]. split; [unfold on_board; lia|].
    exists corner_rook. split; [reflexivity|].
    split; [reflexivity | left; reflexivity].
  - intros h [= <-]. unfold on_board; lia.
Defined.

(** * The picking task *)

(** A loop over squares whose body writes at most its own square. *)
Lemma for_range_pointwise (g : Z -> option Color)
    (body : Z -> list Color -> Result (list Color)) (rng : list Z) :
  (forall i sq, length sq = 64%nat -> In i rng ->
     body i sq = Ok (match g i with
                     | Some c => <[Z.to_nat i := c]> sq
                     | None => sq
                     end)) ->
  (forall i, In i rng -> on_board i) ->
  forall sq, length sq = 64%nat ->
  exists sq',
    for_range body rng sq = Ok sq' /\ length sq' = 64%nat /\
    forall j, on_board j ->
      (forall c, In j rng -> g j = Some c -> sq' !! Z.to_nat j = Some c) /\
      (~ In j rng \/ g j = None -> sq' !! Z.to_nat j = sq !! Z.to_nat j).
Proof.
  induction rng as [|i rng IH]; intros Hbody Hon sq Hl; simpl.
  - exists sq. split; [reflexivity|]. split; [exact Hl|].
    intros j Hj. split; [intros c [] | reflexivity].
  - rewrite (Hbody i sq Hl (or_introl eq_refl)). simpl.
    set (sq1 := match g i with Some c => <[Z.to_nat i := c]> sq | None => sq end).
    assert (Hl1 : length sq1 = 64%nat).
    { unfold sq1. destruct (g i); [now rewrite length_insert | exact Hl]. }
    destruct (IH (fun k q Hq Hk => Hbody k q Hq (or_intror Hk))
                 (fun k Hk => Hon k (or_intror Hk)) sq1 Hl1)
      as (sq' & Hrun & Hl' & Hpt).
    exists sq'. split; [exact Hrun|]. split; [exact Hl'|].
    intros j Hj. destruct (Hpt j Hj) as [Hset Hkeep].
    assert (Hi : on_board i) by (apply Hon; now left).
    split.
    + intros c Hin Hg.
      destruct (in_dec Z.eq_dec j rng) as [Hjr | Hjr]; [now apply Hset|].
      destruct Hin as [-> | Hin]; [|contradiction].
      rewrite Hkeep by now left. unfold sq1. rewrite Hg.
      apply list_lookup_insert_eq. unfold on_board in Hj. lia.
    + intros Hno. rewrite Hkeep.
      * unfold sq1. destruct (g i) as [c|] eqn:Hg; [|reflexivity].
        apply list_lookup_insert_ne. intros Heq.
        assert (i = j) by (unfold on_board in Hi, Hj; lia). subst j.
        destruct Hno as [Hno | Hno]; [apply Hno; now left | congruence].
      * destruct Hno as [Hno | Hno]; [left; intros Hin; apply Hno; now right
                                     | now right].
Qed.

Lemma range64_spec (j : Z) : In j range64 <-> on_board j.
Proof.
  unfold range64, on_board. rewrite <- list_elem_of_In, elem_of_seqZ. lia.
Qed.

(** Clearing the highlight gives every square its checkerboard colour. *)
Lemma reset_colors_spec (sq : list Color) :
  length sq = 64%nat ->
  exists sq',
    reset_colors sq = Ok sq' /\ length sq' = 64%nat /\
    forall j, on_board j -> sq' !! Z.to_nat j = Some (SquareColor j).
Proof.
  intros Hl. unfold reset_colors.
  destruct (for_range_pointwise (fun i => Some (SquareColor i))
              (fun i sq => Py.setitem sq i (SquareColor i)) range64)
    with (sq := sq) as (sq' & Hrun & Hl' & Hpt).
  - intros i q Hq Hi. apply setitem_on_board; [exact Hq | now apply range64_spec].
  - intros i Hi. now apply range64_spec.
  - exact Hl.
  - exists sq'. split; [exact Hrun|]. split; [exact Hl'|].
    intros j Hj. apply (Hpt j Hj); [now apply range64_spec | reflexivity].
Qed.

(** The highlighting loop paints exactly the squares the dragged piece may
    move to and leaves the others as they were. *)
Lemma highlight_spec (ps : Board) (p : Piece) (s : Z) (sq : list Color) :
  length ps = 64%nat -> length sq = 64%nat -> on_board s ->
  Py.getitem ps s = Ok (Some p) -> table_piece p ->
  exists sq',
    for_range (highlight_body ps s) range64 sq = Ok sq' /\
    length sq' = 64%nat /\
    forall j, on_board j ->
      (isVaidMove ps p s j = Ok true -> sq' !! Z.to_nat j = Some VALID) /\
      (isVaidMove ps p s j <> Ok true -> sq' !! Z.to_nat j = sq !! Z.to_nat j).
Proof.
  intros Hl Hsq Hs Hp Htable.
  set (g := fun i => match isVaidMove ps p s i with
                     | Ok true => Some VALID
                     | _ => None
                     end).
  destruct (for_range_pointwise g (highlight_body ps s) range64)
    with (sq := sq) as (sq' & Hrun & Hl' & Hpt).
  - intros i q Hq Hi. apply range64_spec in Hi.
    unfold highlight_body, g. rewrite Hp. simpl.
    destruct (isVaidMove_legal ps p s i Hl Hs Hi Hp Htable) as ([|] & -> & _);
      simpl; [now apply setitem_on_board | reflexivity].
  - intros i Hi. now apply range64_spec.
  - exact Hsq.
  - exists sq'. split; [exact Hrun|]. split; [exact Hl'|].
    intros j Hj. destruct (Hpt j Hj) as [Hset Hkeep]. split.
    + intros Hv. apply Hset; [now apply range64_spec|]. unfold g. now rewrite Hv.
    + intros Hv. apply Hkeep. right. unfold g.
      destruct (isVaidMove ps p s j) as [[|]| |]; congruence.
Qed.

(** One run of [mouseTask]: it returns, touches only the hover and the
    square colours, and colours each square as follows. *)
Lemma mouseTask_spec (st : Stage) (ptr : Pointer) :
  length (pieces (demo st)) = 64%nat -> length (squares st) = 64%nat ->
  (forall s, dragging (demo st) = Some s ->
             on_board s /\
             exists p, Py.getitem (pieces (demo st)) s = Ok (Some p) /\
                       table_piece p) ->
  board_pointer ptr ->
  exists st',
    mouseTask ptr st = Ok st' /\
    pieces (demo st') = pieces (demo st) /\
    dragging (demo st') = dragging (demo st) /\
    screen (demo st') = screen (demo st) /\
    hiSq (demo st') = match ptr with Mouse hit => hit | NoMouse => None end /\
    length (squares st') = 64%nat /\
    forall j, on_board j ->
      exists c,
        squares st' !! Z.to_nat j = Some c /\
        (ptr = Mouse (Some j) -> c = HIGHLIGHT) /\
        (ptr <> Mouse (Some j) ->
         (ptr <> NoMouse /\
          exists s p, dragging (demo st) = Some s /\
                      Py.getitem (pieces (demo st)) s = Ok (Some p) /\
                      isVaidMove (pieces (demo st)) p s j = Ok true) ->
         c = VALID) /\
        (ptr <> Mouse (Some j) ->
         ~ (ptr <> NoMouse /\
            exists s p, dragging (demo st) = Some s /\
                        Py.getitem (pieces (demo st)) s = Ok (Some p) /\
                        isVaidMove (pieces (demo st)) p s j = Ok true) ->
         (hiSq (demo st) <> None -> c = SquareColor j) /\
         (hiSq (demo st) = None -> squares st !! Z.to_nat j = Some c)).
Proof.
  intros Hl Hsq Hdrag Hptr. unfold mouseTask. cbv zeta.
  (* clearing the highlight *)
  assert (Hclear : exists sq1,
            (match hiSq (demo st) with
             | Some _ => sq ← reset_colors (squares st); Ok (sq, None)
             | None => Ok (squares st, hiSq (demo st))
             end : Result (list Color * option Z)) = Ok (sq1, None) /\
            length sq1 = 64%nat /\
            forall j, on_board j ->
              (hiSq (demo st) <> None -> sq1 !! Z.to_nat j = Some (SquareColor j)) /\
              (hiSq (demo st) = None -> sq1 !! Z.to_nat j = squares st !! Z.to_nat j)).
  { destruct (hiSq (demo st)) as [h|] eqn:Eh.
    - destruct (reset_colors_spec (squares st) Hsq) as (sq1 & -> & Hl1 & Hc).
      exists sq1. split; [reflexivity|]. split; [exact Hl1|].
      intros j Hj. split; [intros _; now apply Hc | discriminate].
    - exists (squares st). split; [reflexivity|]. split; [exact Hsq|].
      intros j Hj. split; [congruence | reflexivity]. }
  destruct Hclear as (sq1 & -> & Hl1 & Hbase). cbn [mbind Result_bind].
  destruct ptr as [|hit].
  - (* no mouse *)
    eexists. split; [reflexivity|]. simpl. repeat split; try assumption.
    intros j Hj.
    destruct (lookup_lt_is_Some_2 sq1 (Z.to_nat j)) as [c Hc];
      [unfold on_board in Hj; lia|].
    exists c. split; [exact Hc|]. split; [discriminate|].
    split; [intros _ [Hn _]; congruence|]. intros _ _.
    destruct (Hbase j Hj) as [Hb1 Hb2]. split.
    + intros Hh. rewrite (Hb1 Hh) in Hc. congruence.
    + intros Hh. rewrite <- (Hb2 Hh). exact Hc.
  - (* a mouse: the dragged model follows it, the valid moves are painted *)
    assert (Hpaint : exists crd sq2,
              (match dragging (demo st) with
               | Some s =>
                   occ ← Py.getitem (pieces (demo st)) s;
                   match occ with
                   | Some p => Ok (carried st ++ [p])
                   | None => Raise AttributeError
                   end
               | None => Ok (carried st)
               end) = Ok crd /\
              (match dragging (demo st) with
               | Some s => for_range (highlight_body (pieces (demo st)) s) range64 sq1
               | None => Ok sq1
               end) = Ok sq2 /\
              length sq2 = 64%nat /\
              forall j, on_board j ->
                ((exists s p, dragging (demo st) = Some s /\
                              Py.getitem (pieces (demo st)) s = Ok (Some p) /\
                              isVaidMove (pieces (demo st)) p s j = Ok true) ->
                 sq2 !! Z.to_nat j = Some VALID) /\
                (~ (exists s p, dragging (demo st) = Some s /\
                                Py.getitem (pieces (demo st)) s = Ok (Some p) /\
                                isVaidMove (pieces (demo st)) p s j = Ok true) ->
                 sq2 !! Z.to_nat j = sq1 !! Z.to_nat j)).
    { destruct (dragging (demo st)) as [s|] eqn:Es.
      - destruct (Hdrag s eq_refl) as (Hs & p & Hp & Htable).
        destruct (highlight_spec (pieces (demo st)) p s sq1 Hl Hl1 Hs Hp Htable)
          as (sq2 & Hrun & Hl2 & Hpt).
        exists (carried st ++ [p]), sq2. rewrite Hp. simpl.
        split; [reflexivity|]. split; [exact Hrun|]. split; [exact Hl2|].
        intros j Hj. destruct (Hpt j Hj) as [Hv Hn]. split.
        + intros (s' & p' & [= <-] & Hp' & Hvalid).
          assert (p' = p) by congruence. subst p'. now apply Hv.
        + intros Hno. apply Hn. intros Hvalid. apply Hno. eauto.
      - exists (carried st), sq1. split; [reflexivity|]. split; [reflexivity|].
        split; [exact Hl1|]. intros j Hj. split; [|reflexivity].
        intros (s' & p' & [=] & _). }
    destruct Hpaint as (crd & sq2 & Hcrd & Hsq2 & Hl2 & Hpt).
    rewrite Hcrd. cbn [mbind Result_bind]. rewrite Hsq2. cbn [mbind Result_bind].
    destruct hit as [i|].
    + simpl in Hptr. rewrite setitem_on_board by assumption. simpl.
      eexists. split; [reflexivity|]. simpl.
      repeat split; try assumption; try reflexivity; [now rewrite length_insert|].
      intros j Hj.
      destruct (Z.eq_dec j i) as [-> | Hne].
      * exists HIGHLIGHT. split.
        -- apply list_lookup_insert_eq. unfold on_board in Hptr. lia.
        -- split; [reflexivity|]. split; intros Hn; exfalso; now apply Hn.
      * assert (Hlook : <[Z.to_nat i := HIGHLIGHT]> sq2 !! Z.to_nat j
                        = sq2 !! Z.to_nat j).
        { apply list_lookup_insert_ne. unfold on_board in Hptr, Hj. lia. }
        destruct (lookup_lt_is_Some_2 sq2 (Z.to_nat j)) as [c Hc];
          [unfold on_board in Hj; lia|].
        exists c. rewrite Hlook. split; [exact Hc|].
        destruct (Hpt j Hj) as [Hv Hn]. destruct (Hbase j Hj) as [Hb1 Hb2].
        split; [intros [= ->]; contradiction|]. split.
        -- intros _ [_ Hvalid]. rewrite (Hv Hvalid) in Hc. congruence.
        -- intros _ Hno.
           assert (Hc1 : sq1 !! Z.to_nat j = Some c).
           { rewrite <- Hn; [exact Hc|]. intros Hvalid. apply Hno.
             split; [discriminate | exact Hvalid]. }
           split.
           ++ intros Hh. rewrite (Hb1 Hh) in Hc1. congruence.
           ++ intros Hh. rewrite <- (Hb2 Hh). exact Hc1.
    + eexists. split; [reflexivity|]. simpl.
      repeat split; try assumption; try reflexivity.
      intros j Hj.
      destruct (lookup_lt_is_Some_2 sq2 (Z.to_nat j)) as [c Hc];
        [unfold on_board in Hj; lia|].
      exists c. split; [exact Hc|].
      destruct (Hpt j Hj) as [Hv Hn]. destruct (Hbase j Hj) as [Hb1 Hb2].
      split; [discriminate|]. split.
      * intros _ [_ Hvalid]. rewrite (Hv Hvalid) in Hc. congruence.
      * intros _ Hno.
        assert (Hc1 : sq1 !! Z.to_nat j = Some c).
        { rewrite <- Hn; [exact Hc|]. intros Hvalid. apply Hno.
          split; [discriminate | exact Hvalid]. }
        split.
        -- intros Hh. rewrite (Hb1 Hh) in Hc1. congruence.
        -- intros Hh. rewrite <- (Hb2 Hh). exact Hc1.
Qed.



(** X13. The colours one run of [mouseTask] leaves, with a mouse in the
    window: the square the ray hits is [HIGHLIGHT]; any other square the
    dragged piece may move to ([isVaidMove] true) is [VALID]; any other
    square has its checkerboard colour if a square was hovered when the
    run began, and otherwise keeps the colour it had. *)
Theorem mouseTask_paints_valid_moves (st : Stage) (hit : option Z) :
  length (pieces (demo st)) = 64%nat -> length (squares st) = 64%nat ->
  (forall s, dragging (demo st) = Some s ->
             on_board s /\
             exists p, Py.getitem (pieces (demo st)) s = Ok (Some p) /\
                       table_piece p) ->
  (forall i, hit = Some i -> on_board i) ->
  exists st',
    mouseTask (Mouse hit) st = Ok st' /\
    forall j, on_board j ->
      exists c,
        squares st' !! Z.to_nat j = Some c /\
        (hit = Some j -> c = HIGHLIGHT) /\
        (hit <> Some j ->
         (exists s p, dragging (demo st) = Some s /\
                      Py.getitem (pieces (demo st)) s = Ok (Some p) /\
                      isVaidMove (pieces (demo st)) p s j = Ok true) ->
         c = VALID) /\
        (hit <> Some j ->
         ~ (exists s p, dragging (demo st) = Some s /\
                        Py.getitem (pieces (demo st)) s = Ok (Some p) /\
                        isVaidMove (pieces (demo st)) p s j = Ok true) ->
         (hiSq (demo st) <> None -> c = SquareColor j) /\
         (hiSq (demo st) = None -> squares st !! Z.to_nat j = Some c)).
Proof.
  intros Hl Hsq Hdrag Hhit.
  destruct (mouseTask_spec st (Mouse hit) Hl Hsq Hdrag)
    as (st' & Hrun & _ & _ & _ & _ & _ & Hcol).
  { destruct hit as [i|]; simpl; auto. }
  exists st'. split; [exact Hrun|]. intros j Hj.
  destruct (Hcol j Hj) as (c & Hc & Hhi & Hva & Hbase).
  exists c. split; [exact Hc|]. split; [|split].
  - intros ->. now apply Hhi.
  - intros Hne Hvalid. apply Hva; [congruence|].
    split; [discriminate | exact Hvalid].
  - intros Hne Hno. apply Hbase; [congruence|]. intros [_ Hvalid]. now apply Hno.
Qed.

(** The white pawn of square 8 lifted, with square 8 still hovered. *)
Lemma mouseTask_paints_valid_moves_witness :
  exists st',
    mouseTask (Mouse (Some 16))
      {| demo := {| pieces := init_pieces; hiSq := Some 8; dragging := Some 8;
                    screen := [] |};
         squares := map SquareColor range64; carried := [] |} = Ok st' /\
    forall j, on_board j ->
      exists c,
        squares st' !! Z.to_nat j = Some c /\
        (Some 16 = Some j -> c = HIGHLIGHT) /\
        (Some 16 <> Some j ->
         (exists s p, Some 8 = Some s /\
                      Py.getitem init_pieces s = Ok (Some p) /\
                      isVaidMove init_pieces p s j = Ok true) ->
         c = VALID) /\
        (Some 16 <> Some j ->
         ~ (exists s p, Some 8 = Some s /\
                        Py.getitem init_pieces s = Ok (Some p) /\
                        isVaidMove init_pieces p s j = Ok true) ->
         (Some 8 <> None -> c = SquareColor j) /\
         (Some 8 = None -> map SquareColor range64 !! Z.to_nat j = Some c)).
Proof.
  apply (mouseTask_paints_valid_moves
           {| demo := {| pieces := init_pieces; hiSq := Some 8; dragging := Some 8;
                         screen := [] |};
              squares := map SquareColor range64; carried := [] |} (Some 16)).
  - reflexivity.
  - reflexivity.
  - intros s [= <-]. split; [unfold on_board; lia|].
    exists (new_piece Pawn 8 WHITE). split; [reflexivity|].
    split; [reflexivity | left; reflexivity].
  - intros i [= <-]. unfold on_board. lia.
Defined.

(** X14. The highlight is cleared only when a square was hovered at the
    start of the run: with no hovered square, nothing dragged and no square
    under the pointer, [mouseTask] leaves every square colour as it was,
    a [VALID] left by an earlier drag included. *)
Theorem mouseTask_keeps_stale_colours (st : Stage) (ptr : Pointer) :
  hiSq (demo st) = None -> dragging (demo st) = None ->
  ptr = NoMouse \/ ptr = Mouse None ->
  exists st', mouseTask ptr st = Ok st' /\ squares st' = squares st.
Proof.
  intros Hh Hd Hptr. unfold mouseTask. cbv zeta. rewrite Hh, Hd.
  destruct Hptr as [-> | ->]; cbn [mbind Result_bind];
    eexists; (split; [reflexivity|]); reflexivity.
Qed.

Lemma mouseTask_keeps_stale_colours_witness :
  exists st',
    mouseTask (Mouse None)
      {| demo := init_demo;
         squares := <[16%nat := VALID]> (map SquareColor range64);
         carried := [] |} = Ok st' /\
    squares st' = <[16%nat := VALID]> (map SquareColor range64).
Proof.
  apply (mouseTask_keeps_stale_colours
           {| demo := init_demo;
              squares := <[16%nat := VALID]> (map SquareColor range64);
              carried := [] |} (Mouse None)).
  - reflexivity.
  - reflexivity.
  - now right.
Defined.

(** * The event loop *)

Lemma table_piece_set_square (h : Z) (p : Piece) :
  table_piece p -> table_piece (set_square h p).
Proof. intros H. exact H. Qed.

Lemma table_piece_set_is_first_move (b : bool) (p : Piece) :
  table_piece p -> table_piece (set_is_first_move b p).
Proof. intros H. exact H. Qed.

Lemma init_pieces_table (i : nat) (p : Piece) :
  init_pieces !! i = Some (Some p) -> table_piece p.
Proof.
  assert (H : Forall (fun o => forall q, o = Some q -> table_piece q) init_pieces).
  { let l := eval vm_compute in init_pieces in change init_pieces with l.
    repeat (constructor;
            [ intros q Hq;
              first [ discriminate
                    | injection Hq as <-; split; [reflexivity|];
                      first [ left; reflexivity | right; split; reflexivity ] ] |]).
    constructor. }
  intros Hi. rewrite Forall_lookup in H. exact (H i _ Hi p eq_refl).
Qed.

Lemma init_stage_wf : wf_stage init_stage.
Proof.
  split; [reflexivity|]. split; [reflexivity|].
  split; [exact init_pieces_table|].
  split; intros ? [=].
Qed.

(** Every callback returns and keeps the state structurally valid. *)
Lemma handle_wf (e : Event) (st : Stage) :
  wf_stage st -> board_event e ->
  exists st', handle e st = Ok st' /\ wf_stage st'.
Proof.
  intros (Hl & Hsq & Htable & Hdrag & Hhi) He.
  assert (Hdrag' : forall s, dragging (demo st) = Some s ->
             on_board s /\
             exists p, Py.getitem (pieces (demo st)) s = Ok (Some p) /\
                       table_piece p).
  { intros s Es. destruct (Hdrag s Es) as (Hs & p & Hp).
    split; [exact Hs|]. exists p. split; [exact Hp|].
    apply getitem_lookup in Hp; [|assumption..]. eapply Htable, Hp. }
  destruct e as [ptr| |]; simpl in *.
  - (* the picking task *)
    destruct (mouseTask_spec st ptr Hl Hsq Hdrag' He)
      as (st' & Hrun & Hp & Hd & _ & Hh & Hl' & _).
    exists st'. split; [exact Hrun|]. unfold wf_stage. rewrite Hp, Hd, Hh.
    split; [exact Hl|]. split; [exact Hl'|]. split; [exact Htable|].
    split; [exact Hdrag|].
    intros h Eh. destruct ptr as [|[i|]]; try discriminate.
    injection Eh as <-. exact He.
  - (* mouse1 *)
    unfold grabPiece. destruct (hiSq (demo st)) as [h|] eqn:Eh.
    + specialize (Hhi h eq_refl).
      destruct (getitem_on_board (pieces (demo st)) h Hl Hhi) as (occ & _ & Hocc).
      rewrite Hocc. simpl. destruct occ as [p|]; simpl.
      * eexists. split; [reflexivity|]. unfold wf_stage. simpl.
        split; [exact Hl|]. split; [exact Hsq|]. split; [exact Htable|].
        split; [|intros ? [=]].
        intros s [= <-]. eauto.
      * eexists. split; [reflexivity|]. unfold wf_stage. simpl. rewrite Eh.
        split; [exact Hl|]. split; [exact Hsq|]. split; [exact Htable|].
        split; [exact Hdrag|].
        intros ? [= <-]. exact Hhi.
    + eexists. split; [reflexivity|]. unfold wf_stage. simpl. rewrite Eh.
      split; [exact Hl|]. split; [exact Hsq|]. split; [exact Htable|].
      split; [exact Hdrag|]. intros ? [=].
  - (* mouse1-up *)
    destruct (releasePiece_returns (demo st) Hl Hdrag' Hhi) as [d' Hrun].
    rewrite Hrun. simpl. eexists. split; [reflexivity|].
    destruct (releasePiece_cases (demo st) d' Hl) as (Hd & Hh & Hcases);
      [intros s Es; now apply Hdrag | exact Hhi | exact Hrun |].
    unfold wf_stage. simpl. rewrite Hd, Hh.
    assert (Hboard : length (pieces d') = 64%nat /\
                     forall i p, pieces d' !! i = Some (Some p) -> table_piece p).
    { destruct Hcases as [(-> & _)
        | (s & h & p & Q & Es & Eh & _ & Hs & _ & HP & _ & _ & _ & -> & _)].
      - split; assumption.
      - split; [now rewrite !length_insert|]. intros i q Hq.
        apply list_lookup_insert_Some in Hq as [(_ & [= <-] & _) | (_ & Hq)].
        + apply table_piece_set_square, table_piece_set_is_first_move.
          apply getitem_lookup in HP; [|assumption..]. eapply Htable, HP.
        + apply list_lookup_insert_Some in Hq as [(_ & [=] & _) | (_ & Hq)].
          eapply Htable, Hq. }
    destruct Hboard as [Hl' Htable'].
    split; [exact Hl'|]. split; [exact Hsq|]. split; [exact Htable'|].
    split; [intros ? [=] | exact Hhi].
Qed.

Lemma run_wf (es : list Event) :
  Forall board_event es ->
  forall st, wf_stage st -> exists st', run es st = Ok st' /\ wf_stage st'.
Proof.
  induction 1 as [|e es He _ IH]; intros st Hwf; simpl.
  - eauto.
  - destruct (handle_wf e st Hwf He) as (st1 & -> & Hwf1). simpl.
    now apply IH.
Qed.

(** X15. From the state [ChessboardDemo.__init__] sets up, every sequence
    of callbacks (picking task runs, presses and releases of the button, in
    any order, the ray hitting squares 0..63 only) runs to its end without
    an exception or an endless scan (the picking geometry being the
    engine's), and leaves 64 slots and 64 square
    colours, only pieces built from the class tables, a dragged square that
    is on the board and occupied, and a hovered square that is on the
    board. *)
Theorem event_loop_never_raises (es : list Event) :
  Forall board_event es ->
  exists st', run es init_stage = Ok st' /\ wf_stage st'.
Proof.
  intros Hes. exact (run_wf es Hes init_stage init_stage_wf).
Qed.

Lemma event_loop_never_raises_witness :
  exists st',
    run [Tick (Mouse (Some 8)); Mouse1; Tick (Mouse (Some 16)); Mouse1Up;
         Tick NoMouse; Mouse1Up; Mouse1] init_stage = Ok st' /\
    wf_stage st'.
Proof.
  apply (event_loop_never_raises
           [Tick (Mouse (Some 8)); Mouse1; Tick (Mouse (Some 16)); Mouse1Up;
            Tick NoMouse; Mouse1Up; Mouse1]).
  repeat (constructor; [simpl; first [exact I | unfold on_board; lia]|]).
  constructor.
Defined.



(** X17. One whole drag and drop. With nothing dragged and the pointer
    over an occupied square [s], a press, one run of the picking task with
    the pointer over [t], and a release move the piece from [s] to [t]
    when [isVaidMove] accepts the move (then [s] is left empty, [t] holds
    the piece with [square = t], and the other slots are untouched), and
    leave the slots as they were when it rejects it. Either way nothing is
    dragged afterwards and [t] is the hovered square. *)
Theorem drag_and_drop (st : Stage) (s t : Z) (p : Piece) :
  length (pieces (demo st)) = 64%nat -> length (squares st) = 64%nat ->
  on_board s -> on_board t ->
  hiSq (demo st) = Some s ->
  Py.getitem (pieces (demo st)) s = Ok (Some p) -> table_piece p ->
  exists st',
    run [Mouse1; Tick (Mouse (Some t)); Mouse1Up] st = Ok st' /\
    dragging (demo st') = None /\ hiSq (demo st') = Some t /\
    ((isVaidMove (pieces (demo st)) p s t = Ok true /\ s <> t /\
      Py.getitem (pieces (demo st')) s = Ok None /\
      Py.getitem (pieces (demo st')) t
      = Ok (Some (set_square t (set_is_first_move false p))) /\
      (forall i, on_board i -> i <> s -> i <> t ->
                 Py.getitem (pieces (demo st')) i
                 = Py.getitem (pieces (demo st)) i)) \/
     (isVaidMove (pieces (demo st)) p s t = Ok false /\
      pieces (demo st') = pieces (demo st))).
Proof.
  intros Hl Hsq Hs Ht Hh Hp Htable.
  cbn [run handle]. unfold grabPiece. rewrite Hh, Hp. cbn [mbind Result_bind].
  set (st1 := {| demo := {| pieces := pieces (demo st); hiSq := None;
                            dragging := Some s; screen := screen (demo st) |};
                 squares := squares st; carried := carried st |}).
  destruct (mouseTask_spec st1 (Mouse (Some t))) as
    (st2 & Hrun2 & Hp2 & Hd2 & _ & Hh2 & _); try assumption.
  { intros s' [= <-]. split; [exact Hs|]. exists p. split; assumption. }
  rewrite Hrun2. cbn [mbind Result_bind]. simpl in Hp2, Hd2, Hh2.
  assert (Hl2 : length (pieces (demo st2)) = 64%nat) by (now rewrite Hp2).
  assert (HP2 : Py.getitem (pieces (demo st2)) s = Ok (Some p)) by (now rewrite Hp2).
  destruct (isVaidMove_legal (pieces (demo st)) p s t Hl Hs Ht Hp Htable)
    as ([|] & Hv & _).
  - destruct (releasePiece_valid_slots (demo st2) s t p Hl2 Hs Ht Hd2 Hh2 HP2)
      as (d3 & Hrun3 & Hne & Hd3 & Hh3 & Hat_s & Hat_t & Hrest).
    { now rewrite Hp2. }
    rewrite Hrun3. cbn [mbind Result_bind]. eexists. split; [reflexivity|].
    simpl. split; [exact Hd3|]. split; [exact Hh3|]. left.
    split; [exact Hv|]. split; [exact Hne|]. split; [exact Hat_s|].
    split; [exact Hat_t|]. intros i Hi His Hit. rewrite <- Hp2. now apply Hrest.
  - unfold releasePiece. rewrite Hd2, Hh2, HP2. cbn [mbind Result_bind].
    rewrite Hp2, Hv. cbn [mbind Result_bind].
    rewrite (put_back_spec (demo st2) s p HP2). cbn [mbind Result_bind].
    eexists. split; [reflexivity|]. simpl.
    split; [reflexivity|]. split; [first [reflexivity | exact Hh2]|]. right.
    split; [first [reflexivity | exact Hv] | first [reflexivity | exact Hp2]].
Qed.

Lemma drag_and_drop_witness :
  exists st',
    run [Mouse1; Tick (Mouse (Some 18)); Mouse1Up]
        {| demo := {| pieces := init_pieces; hiSq := Some 1; dragging := None;
                      screen := [] |};
           squares := map SquareColor range64; carried := [] |} = Ok st' /\
    dragging (demo st') = None /\ hiSq (demo st') = Some 18 /\
    ((isVaidMove init_pieces (new_piece Knight 1 WHITE) 1 18 = Ok true /\ 1 <> 18 /\
      Py.getitem (pieces (demo st')) 1 = Ok None /\
      Py.getitem (pieces (demo st')) 18
      = Ok (Some (set_square 18 (set_is_first_move false (new_piece Knight 1 WHITE)))) /\
      (forall i, on_board i -> i <> 1 -> i <> 18 ->
                 Py.getitem (pieces (demo st')) i = Py.getitem init_pieces i)) \/
     (isVaidMove init_pieces (new_piece Knight 1 WHITE) 1 18 = Ok false /\
      pieces (demo st') = init_pieces)).
Proof.
  apply (drag_and_drop
           {| demo := {| pieces := init_pieces; hiSq := Some 1; dragging := None;
                         screen := [] |};
              squares := map SquareColor range64; carried := [] |}
           1 18 (new_piece Knight 1 WHITE)).
  - reflexivity.
  - reflexivity.
  - unfold on_board; lia.
  - unfold on_board; lia.
  - reflexivity.
  - reflexivity.
  - split; [reflexivity | left; reflexivity].
Defined.

(** * The queen *)

(** Reaching a square depends on the board only through the squares other
    than the source. *)
Lemma reaches_transfer (ps ps' : Board) (p p' : Piece) (s t : Z) :
  on_board s -> on_board t ->
  limit p' = limit p ->
  (forall i, on_board i -> i <> s -> ps' !! Z.to_nat i = ps !! Z.to_nat i) ->
  (forall move, In move (moves p') -> In move (moves p) /\ step move <> 0) ->
  reaches ps' p' s t -> reaches ps p s t.
Proof.
  intros Hs Ht Hlim Hsame Hmoves (move & k & Hin & Hk & Hone & Hx & Hy & Hclear).
  destruct (Hmoves move Hin) as [Hin' Hstep].
  exists move, k. split; [exact Hin'|]. split; [exact Hk|].
  split; [rewrite <- Hlim; exact Hone|]. split; [exact Hx|]. split; [exact Hy|].
  intros j Hj.
  destruct (ray_on_board s t k move Hs Ht Hk Hx Hy) as [_ Hon].
  rewrite <- Hsame; [now apply Hclear | now apply Hon | nia].
Qed.

(** A move that reaches its target does not stay on the source square. *)
Lemma reaches_elsewhere (ps : Board) (p : Piece) (s t : Z) :
  (forall move, In move (moves p) -> step move <> 0) ->
  reaches ps p s t -> t <> s.
Proof.
  intros Hmoves (move & k & Hin & Hk & _ & Hx & Hy & _) ->.
  apply (Hmoves move Hin). unfold xDistance, yDistance, step in *.
  assert (move.1 = 0) by nia. assert (move.2 = 0) by nia. lia.
Qed.

(** X18. The queen moves as a rook or as a bishop: [isVaidMove] accepts a
    move of a queen exactly when it accepts the same move, on the same
    board, of a rook or of a bishop of the queen's side put in her place. *)
Theorem queen_moves_as_rook_or_bishop (ps : Board) (q : Piece) (s t : Z) :
  length ps = 64%nat -> on_board s -> on_board t ->
  Py.getitem ps s = Ok (Some q) ->
  kind q = Queen -> limit q = false -> moves q = class_moves Queen ->
  let c := if white q then WHITE else PIECEBLACK in
  isVaidMove ps q s t = Ok true <->
  isVaidMove (<[Z.to_nat s := Some (new_piece Rook s c)]> ps)
             (new_piece Rook s c) s t = Ok true \/
  isVaidMove (<[Z.to_nat s := Some (new_piece Bishop s c)]> ps)
             (new_piece Bishop s c) s t = Ok true.
Proof.
  intros Hl Hs Ht Hq Hk Hlim Hm c.
  assert (Hqt : table_piece q).
  { split; [rewrite Hk; exact Hlim | left; rewrite Hk; exact Hm]. }
  assert (Hstepq : forall move, In move (moves q) -> step move <> 0).
  { intros move Hin. now destruct (table_piece_moves q move Hqt Hin) as (_ & _ & H & _). }
  assert (Hother : forall k', (k' = Rook \/ k' = Bishop) ->
            let r := new_piece k' s c in
            let ps' := <[Z.to_nat s := Some r]> ps in
            table_piece r /\ white r = white q /\ limit r = limit q /\
            length ps' = 64%nat /\ Py.getitem ps' s = Ok (Some r) /\
            (forall i, on_board i -> i <> s ->
                       ps' !! Z.to_nat i = ps !! Z.to_nat i) /\
            (forall move, In move (moves r) ->
                          In move (moves q) /\ step move <> 0)).
  { intros k' Hk' r ps'.
    assert (Hrt : table_piece r) by (split; [reflexivity | left; reflexivity]).
    split; [exact Hrt|]. split.
    { unfold r, c. destruct (white q); reflexivity. }
    split; [rewrite Hlim; destruct Hk' as [-> | ->]; reflexivity|].
    split; [unfold ps'; now rewrite length_insert|].
    split; [unfold ps'; now apply getitem_insert_eq|].
    split.
    - intros i Hi Hne. unfold ps'. apply list_lookup_insert_ne.
      unfold on_board in Hs, Hi. lia.
    - intros move Hin. split.
      + rewrite Hm. destruct Hk' as [-> | ->]; simpl in Hin |- *; tauto.
      + now destruct (table_piece_moves r move Hrt Hin) as (_ & _ & H & _). }
  assert (Hcase : forall k', (k' = Rook \/ k' = Bishop) ->
            let r := new_piece k' s c in
            let ps' := <[Z.to_nat s := Some r]> ps in
            isVaidMove ps' r s t = Ok true <->
            (exists move k, In move (moves r) /\ 1 <= k /\
                            xDistance s t = k * move.1 /\
                            yDistance s t = k * move.2) /\
            isVaidMove ps q s t = Ok true).
  { intros k' Hk' r ps'.
    destruct (Hother k' Hk') as (Hrt & Hw & Hlr & Hl' & Hr & Hsame & Hmoves).
    fold r in Hrt, Hw, Hlr, Hmoves. fold r ps' in Hl', Hr, Hsame.
    destruct (isVaidMove_legal ps' r s t Hl' Hs Ht Hr Hrt) as (b' & Hb' & Hiff').
    destruct (isVaidMove_legal ps q s t Hl Hs Ht Hq Hqt) as (b & Hb & Hiff).
    rewrite Hb', Hb. split.
    - intros [= ->]. destruct (proj1 Hiff' eq_refl) as [Hreach Hown]. split.
      + destruct Hreach as (move & k & Hin & Hk1 & _ & Hx & Hy & _).
        exists move, k. repeat split; assumption.
      + f_equal. apply Hiff. split.
        * apply (reaches_transfer ps ps' q r s t); auto.
        * intros (o & Ho & Hwo). apply Hown. exists o. split; [|congruence].
          rewrite Hsame; [exact Ho | exact Ht |].
          apply (reaches_elsewhere ps' r s t); [|exact Hreach].
          intros move Hin. now apply Hmoves.
    - intros [(move & k & Hin & Hk1 & Hx & Hy) [= ->]]. f_equal. apply Hiff'.
      destruct (proj1 Hiff eq_refl) as [Hreach Hown].
      assert (Hts : t <> s) by (apply (reaches_elsewhere ps q s t); assumption).
      split.
      + destruct Hreach as (move' & k2 & Hin' & Hk2 & _ & Hx' & Hy' & Hclear).
        destruct (Hmoves move Hin) as [Hinq Hstep].
        destruct (table_piece_moves q move Hqt Hinq) as (_ & _ & _ & Hunit).
        destruct (table_piece_moves q move' Hqt Hin') as (_ & _ & Hstep' & Hunit').
        specialize (Hunit Hlim). specialize (Hunit' Hlim).
        assert (Heq : move' = move /\ k2 = k).
        { destruct move as [m0 m1], move' as [n0 n1]. simpl in *.
          apply unit_ray_unique; try lia.
          intros [= -> ->]. apply Hstep'. reflexivity. }
        destruct Heq as [-> ->].
        exists move, k. split; [exact Hin|]. split; [exact Hk1|].
        split; [rewrite Hlr, Hlim; discriminate|].
        split; [exact Hx|]. split; [exact Hy|].
        intros j Hj.
        destruct (ray_on_board s t k move Hs Ht Hk1 Hx Hy) as [_ Hon].
        rewrite Hsame; [now apply Hclear | now apply Hon | nia].
      + intros (o & Ho & Hwo). apply Hown. exists o. split; [|congruence].
        rewrite <- Hsame; [exact Ho | exact Ht | exact Hts]. }
  rewrite (Hcase Rook (or_introl eq_refl)), (Hcase Bishop (or_intror eq_refl)).
  split.
  - intros Hv.
    destruct (isVaidMove_legal ps q s t Hl Hs Ht Hq Hqt) as (b & Hb & Hiff).
    rewrite Hb in Hv. injection Hv as ->.
    destruct (proj1 Hiff eq_refl) as [(move & k & Hin & Hk1 & _ & Hx & Hy & _) _].
    rewrite Hm in Hin. simpl in Hin.
    destruct Hin as [E | [E | [E | [E | [E | [E | [E | [E | []]]]]]]]];
      [left | left | left | left | right | right | right | right];
      (split; [|exact Hb]); exists move, k;
      (split; [rewrite <- E; simpl; tauto | repeat split; assumption]).
  - intros [[_ Hv] | [_ Hv]]; exact Hv.
Qed.

Lemma queen_moves_as_rook_or_bishop_witness :
  isVaidMove (lone (new_piece Queen 27 WHITE) 27) (new_piece Queen 27 WHITE) 27 45
  = Ok true <->
  isVaidMove (<[Z.to_nat 27 := Some (new_piece Rook 27 WHITE)]>
                (lone (new_piece Queen 27 WHITE) 27))
             (new_piece Rook 27 WHITE) 27 45 = Ok true \/
  isVaidMove (<[Z.to_nat 27 := Some (new_piece Bishop 27 WHITE)]>
                (lone (new_piece Queen 27 WHITE) 27))
             (new_piece Bishop 27 WHITE) 27 45 = Ok true.
Proof.
  apply (queen_moves_as_rook_or_bishop (lone (new_piece Queen 27 WHITE) 27)
           (new_piece Queen 27 WHITE) 27 45).
  - reflexivity.
  - unfold on_board; lia.
  - unfold on_board; lia.
  - reflexivity.
  - reflexivity.
  - reflexivity.
  - reflexivity.
Defined.
